(** * Cadeautjes backend: the gift lifecycle

    A shallow embedding of [src/models/database.ts] (the schema) and of
    [src/routes/gifts.ts] (the purchase, inventory, send, claim and sync
    routes).

    Tables are lists of rows in insertion order.  A prepared statement is a
    function on the database value; a statement that violates a constraint of
    the schema raises, which the route's [try]/[catch] turns into a 500 reply
    while every earlier write stays in place (no route opens a transaction).

    Values the routes draw from outside (the [uuidv4()] results, the
    authenticated user, the rendering of the QR image) are arguments.

    Numbers are whole numbers and amounts of money whole cents.  The
    purchase and send routes come twice: first with exact arithmetic, then,
    in [Stored], with the arithmetic of the doubles of JS and the 64-bit
    integers of SQLite.  A route of [gifts.ts] runs from its start to its end
    without another request in between. *)

From Stdlib Require Import ZArith List String Bool Lia DecimalString.
From Stdlib Require Import Sorted Permutation.
Import ListNotations.
Local Open Scope Z_scope.

(** ** Schema ([initializeTables]) *)

(** [users].  The password hash plays no part in the gift routes. *)
Module Users.
Record row := mk
  { id : Z;
    email : string;
    name : string;
    device_id : option string }.
End Users.

(** [gift_types].  [price] is [DECIMAL(10,2)]; amounts are held in cents,
    so that [price * quantity] is exact in the routes with exact
    arithmetic. *)
Module GiftTypes.
Record row := mk
  { id : Z;
    name : string;
    emoji : string;
    description : string;
    price : Z;
    category : string;
    active : bool }.
End GiftTypes.

(** [user_gifts].  The surrogate key and [purchased_at] are never read by
    the routes and are left out.  The table has no uniqueness constraint on
    [(user_id, gift_type_id)]. *)
Module UserGifts.
Record row := mk
  { user_id : Z;
    gift_type_id : Z;
    quantity : Z }.
End UserGifts.

(** [transactions].  [id] is the primary key and [qr_code] is [UNIQUE];
    [status] defaults to ['sent'], [redeemed_at] and [partner_id] to
    [NULL]. *)
Module Transactions.
Record row := mk
  { id : string;
    sender_id : Z;
    receiver_email : option string;
    gift_type_id : Z;
    status : string;
    qr_code : string;
    message : option string;
    redeemed_at : option string;
    partner_id : option Z }.
End Transactions.

(** One element of the [items] array of a purchase request, its fields
    being the JS numbers of the parsed body, of whole value. *)
Record Item := mkItem
  { giftTypeId : Z;
    quantity : Z }.

(** [purchases].  [items] holds [JSON.stringify(items)], kept here as the
    item list itself; [status] defaults to ['completed']. *)
Module Purchases.
Record row := mk
  { id : string;
    user_id : Z;
    items : list Item;
    total_amount : Z;
    status : string }.
End Purchases.

Record Db := mkDb
  { users : list Users.row;
    gift_types : list GiftTypes.row;
    user_gifts : list UserGifts.row;
    transactions : list Transactions.row;
    purchases : list Purchases.row }.

Definition set_users (l : list Users.row) (db : Db) : Db :=
  mkDb l (gift_types db) (user_gifts db) (transactions db) (purchases db).
Definition set_user_gifts (l : list UserGifts.row) (db : Db) : Db :=
  mkDb (users db) (gift_types db) l (transactions db) (purchases db).
Definition set_transactions (l : list Transactions.row) (db : Db) : Db :=
  mkDb (users db) (gift_types db) (user_gifts db) l (purchases db).
Definition set_purchases (l : list Purchases.row) (db : Db) : Db :=
  mkDb (users db) (gift_types db) (user_gifts db) (transactions db) l.

(** The two status values the code knows: the column default of
    [transactions.status], which is the state the specification calls
    "issued", and the value the claim route tests for. *)
Definition issued : string := "sent".
Definition redeemed : string := "redeemed".

(** ** Statements *)

(** Foreign keys of the schema: the referenced row must exist (the driver
    enforces foreign keys unless told otherwise, and nothing here tells it). *)
Definition user_exists (uid : Z) (db : Db) : bool :=
  existsb (fun u => Users.id u =? uid) (users db).
Definition gift_type_exists (gid : Z) (db : Db) : bool :=
  existsb (fun g => GiftTypes.id g =? gid) (gift_types db).

(** [SELECT * FROM gift_types WHERE id = ? AND active = 1] *)
Definition select_active_gift_type (gid : Z) (db : Db) : option GiftTypes.row :=
  find (fun g => (GiftTypes.id g =? gid) && GiftTypes.active g) (gift_types db).

(** [SELECT * FROM gift_types WHERE id = ?] *)
Definition select_gift_type (gid : Z) (db : Db) : option GiftTypes.row :=
  find (fun g => GiftTypes.id g =? gid) (gift_types db).

Definition user_gift_key (uid gid : Z) (r : UserGifts.row) : bool :=
  (UserGifts.user_id r =? uid) && (UserGifts.gift_type_id r =? gid).

(** [SELECT * FROM user_gifts WHERE user_id = ? AND gift_type_id = ?] *)
Definition select_user_gift (uid gid : Z) (db : Db) : option UserGifts.row :=
  find (user_gift_key uid gid) (user_gifts db).

(** [SELECT * FROM user_gifts WHERE user_id = ? AND gift_type_id = ?
     AND quantity > 0] *)
Definition select_available_user_gift (uid gid : Z) (db : Db)
  : option UserGifts.row :=
  find (fun r => user_gift_key uid gid r && (0 <? UserGifts.quantity r))
       (user_gifts db).

(** [UPDATE user_gifts SET quantity = quantity + ?
     WHERE user_id = ? AND gift_type_id = ?]: every matching row changes.
    Quantities are whole numbers and the arithmetic on them is exact here
    and in the routes below; [Stored], further down, has the statements and
    the routes with the arithmetic of doubles and 64-bit integers that the
    store applies, and the two agree within the ranges given there. *)
Definition add_quantity (q uid gid : Z) (r : UserGifts.row) : UserGifts.row :=
  if user_gift_key uid gid r
  then UserGifts.mk (UserGifts.user_id r) (UserGifts.gift_type_id r)
                    (UserGifts.quantity r + q)
  else r.

Definition update_user_gift_add (q uid gid : Z) (db : Db) : Db :=
  set_user_gifts (map (add_quantity q uid gid) (user_gifts db)) db.

(** [UPDATE user_gifts SET quantity = quantity - 1
     WHERE user_id = ? AND gift_type_id = ?] *)
Definition update_user_gift_decrement (uid gid : Z) (db : Db) : Db :=
  set_user_gifts (map (add_quantity (-1) uid gid) (user_gifts db)) db.

(** [INSERT INTO user_gifts (user_id, gift_type_id, quantity)
     VALUES (?, ?, ?)] *)
Definition insert_user_gift (uid gid q : Z) (db : Db) : option Db :=
  if user_exists uid db && gift_type_exists gid db
  then Some (set_user_gifts (user_gifts db ++ [UserGifts.mk uid gid q]) db)
  else None.

(** [INSERT INTO purchases (id, user_id, items, total_amount)
     VALUES (?, ?, ?, ?)] *)
Definition insert_purchase (pid : string) (uid : Z) (its : list Item)
    (total : Z) (db : Db) : option Db :=
  if existsb (fun p => String.eqb (Purchases.id p) pid) (purchases db)
  then None
  else if user_exists uid db
  then Some (set_purchases
               (purchases db ++ [Purchases.mk pid uid its total "completed"])
               db)
  else None.

(** [INSERT INTO transactions (id, sender_id, receiver_email, gift_type_id,
     qr_code, message) VALUES (?, ?, ?, ?, ?, ?)] *)
Definition insert_transaction (tid : string) (uid : Z)
    (receiver : option string) (gid : Z) (code : string)
    (msg : option string) (db : Db) : option Db :=
  if existsb (fun t => String.eqb (Transactions.id t) tid) (transactions db)
  then None
  else if existsb (fun t => String.eqb (Transactions.qr_code t) code)
                  (transactions db)
  then None
  else if user_exists uid db && gift_type_exists gid db
  then Some (set_transactions
               (transactions db ++
                [Transactions.mk tid uid receiver gid issued code msg
                                 None None])
               db)
  else None.

(** [UPDATE users SET device_id = ? WHERE id = ?] *)
Definition update_device_id (dev : string) (uid : Z) (db : Db) : Db :=
  set_users
    (map (fun u => if Users.id u =? uid
                   then Users.mk (Users.id u) (Users.email u) (Users.name u)
                                 (Some dev)
                   else u)
         (users db))
    db.

(** ** Route handlers as state-passing computations *)

(** What a route sends back: [res.json(body)], or
    [res.status(status).json({ error })]. *)
Inductive response (B : Type) : Type :=
| Json (body : B)
| Error (status : Z) (error : string).
Arguments Json {B} body.
Arguments Error {B} status error.

(** A handler step runs on the database and either yields a value or ends
    the request with a reply; the database it leaves behind is kept in both
    cases. *)
Definition handler (B A : Type) : Type := Db -> Db * (A + response B).

Definition ret {B A} (a : A) : handler B A := fun db => (db, inl a).

Definition bind {B A A'} (m : handler B A) (k : A -> handler B A')
  : handler B A' :=
  fun db =>
    match m db with
    | (db', inl a) => k a db'
    | (db', inr r) => (db', inr r)
    end.

Notation "x <- m ;; k" := (bind m (fun x => k))
  (at level 61, m at next level, right associativity).
Notation "m ;;; k" := (bind m (fun _ => k))
  (at level 61, right associativity).

(** [return res.status(..).json(..)] or the final [res.json(..)]. *)
Definition respond {B A} (r : response B) : handler B A :=
  fun db => (db, inr r).

(** The [catch] branch of every route. *)
Definition internal_error {B} : response B :=
  Error 500 "Internal server error".

(** [database.async.get / all]: a read. *)
Definition query {B A} (q : Db -> A) : handler B A :=
  fun db => (db, inl (q db)).

(** [database.async.run] of a statement that cannot violate a constraint. *)
Definition run {B} (w : Db -> Db) : handler B unit :=
  fun db => (w db, inl tt).

(** [database.async.run] of a statement that raises on a violated
    constraint; the exception reaches the route's [catch]. *)
Definition run_checked {B} (w : Db -> option Db) : handler B unit :=
  fun db =>
    match w db with
    | Some db' => (db', inl tt)
    | None => (db, inr internal_error)
    end.

(** A whole route: the reply is whatever ended the request. *)
Definition route {B} (h : handler B (response B)) (db : Db)
  : Db * response B :=
  match h db with
  | (db', inl r) => (db', r)
  | (db', inr r) => (db', r)
  end.

(** Template-literal rendering of a number: the decimal digits of a whole
    number, which is what JS prints for the safe integers (beyond them it
    prints the shortest digits that give the double back, and an exponent
    from [1e21] on). *)
Definition show (z : Z) : string := NilZero.string_of_int (Z.to_int z).

(** ** [POST /purchase] *)

Record PurchaseBody := mkPurchaseBody
  { pb_message : string;
    pb_purchaseId : string;
    pb_totalAmount : Z;
    pb_items : list Item }.

(** The body of [for (const item of items)], threaded with [totalAmount]. *)
Fixpoint purchase_items (userId : Z) (items : list Item) (totalAmount : Z)
  : handler PurchaseBody Z :=
  match items with
  | [] => ret totalAmount
  | item :: rest =>
      giftType <- query (select_active_gift_type (giftTypeId item)) ;;
      match giftType with
      | None =>
          respond (Error 400 ("Invalid gift type: " ++ show (giftTypeId item)))
      | Some giftType =>
          let totalAmount :=
            totalAmount + GiftTypes.price giftType * quantity item in
          existingInventory <- query (select_user_gift userId (giftTypeId item)) ;;
          match existingInventory with
          | Some _ =>
              run (update_user_gift_add (quantity item) userId (giftTypeId item))
          | None =>
              run_checked
                (insert_user_gift userId (giftTypeId item) (quantity item))
          end ;;;
          purchase_items userId rest totalAmount
      end
  end.

(** [user] is [req.user.userId] when the request carries a valid token;
    [items] is [None] when the body has no array under [items];
    [purchaseId] is the value [uuidv4()] returns. *)
Definition purchase (user : option Z) (items : option (list Item))
    (purchaseId : string) : Db -> Db * response PurchaseBody :=
  route
    match user with
    | None => respond (Error 401 "User not authenticated")
    | Some userId =>
        match items with
        | None | Some [] => respond (Error 400 "Items are required")
        | Some items =>
            totalAmount <- purchase_items userId items 0 ;;
            run_checked (insert_purchase purchaseId userId items totalAmount) ;;;
            ret (Json (mkPurchaseBody "Purchase successful" purchaseId
                                      totalAmount items))
        end
    end.

(** ** [POST /send] *)

Record SendRequest := mkSendRequest
  { sr_giftTypeId : option Z;
    sr_receiverEmail : option string;
    sr_message : option string }.

Record GiftSummary := mkGiftSummary
  { gs_name : string;
    gs_emoji : string;
    gs_description : string }.

Record SendBody := mkSendBody
  { sb_message : string;
    sb_transactionId : string;
    sb_gift : GiftSummary;
    sb_qrCode : string;
    sb_claimUrl : string }.

(** [const qrCodeData = `CADEAUTJE-${transactionId}`] *)
Definition qrCodeData (transactionId : string) : string :=
  "CADEAUTJE-" ++ transactionId.

Section Send.

(** [QRCode.toDataURL]: the image as a data URL, or [None] when the
    library rejects its input (the promise rejects). *)
Variable toDataURL : string -> option string.

(** [transactionId] is the value [uuidv4()] returns.  [!giftTypeId] holds
    for a missing field and for [0].  Reading [giftType.name] raises when
    the catalogue lookup found nothing. *)
Definition send (user : option Z) (req : SendRequest)
    (transactionId : string) : Db -> Db * response SendBody :=
  route
    match user with
    | None => respond (Error 401 "User not authenticated")
    | Some userId =>
        match sr_giftTypeId req with
        | None | Some 0 => respond (Error 400 "Gift type ID is required")
        | Some giftTypeId =>
            userGift <- query (select_available_user_gift userId giftTypeId) ;;
            match userGift with
            | None =>
                respond (Error 400 "You do not have this gift available")
            | Some _ =>
                giftType <- query (select_gift_type giftTypeId) ;;
                match toDataURL (qrCodeData transactionId) with
                | None => respond internal_error
                | Some qrCodeDataURL =>
                    run_checked
                      (insert_transaction transactionId userId
                         (sr_receiverEmail req) giftTypeId
                         (qrCodeData transactionId) (sr_message req)) ;;;
                    run (update_user_gift_decrement userId giftTypeId) ;;;
                    match giftType with
                    | None => respond internal_error
                    | Some giftType =>
                        ret (Json
                               (mkSendBody "Gift sent successfully"
                                  transactionId
                                  (mkGiftSummary
                                     (GiftTypes.name giftType)
                                     (GiftTypes.emoji giftType)
                                     (GiftTypes.description giftType))
                                  qrCodeDataURL
                                  ("https://cadeautjes.app/claim/"
                                     ++ transactionId)))
                    end
                end
            end
        end
    end.

End Send.

(** ** [GET /inventory] and [POST /sync] *)

(** [ORDER BY]: a stable insertion sort under a boolean "comes no later
    than" test. *)
Section OrderBy.
Context {A : Type} (leb : A -> A -> bool).

Fixpoint insert_row (x : A) (l : list A) : list A :=
  match l with
  | [] => [x]
  | y :: l' => if leb x y then x :: l else y :: insert_row x l'
  end.

Definition order_by (l : list A) : list A := fold_right insert_row [] l.
End OrderBy.

(** [FROM user_gifts ug JOIN gift_types gt ON ug.gift_type_id = gt.id] *)
Definition join_user_gifts (db : Db) : list (UserGifts.row * GiftTypes.row) :=
  flat_map
    (fun ug =>
       map (fun gt => (ug, gt))
           (filter (fun gt => UserGifts.gift_type_id ug =? GiftTypes.id gt)
                   (gift_types db)))
    (user_gifts db).

(** [WHERE ug.user_id = ? AND ug.quantity > 0] *)
Definition held_by (userId : Z) (r : UserGifts.row * GiftTypes.row) : bool :=
  (UserGifts.user_id (fst r) =? userId) && (0 <? UserGifts.quantity (fst r)).

(** [ORDER BY gt.category, gt.name] (binary collation) *)
Definition by_category_name (a b : UserGifts.row * GiftTypes.row) : bool :=
  String.ltb (GiftTypes.category (snd a)) (GiftTypes.category (snd b))
  || (String.eqb (GiftTypes.category (snd a)) (GiftTypes.category (snd b))
      && String.leb (GiftTypes.name (snd a)) (GiftTypes.name (snd b))).

(** [ORDER BY ug.quantity DESC, gt.name] *)
Definition by_quantity_desc_name (a b : UserGifts.row * GiftTypes.row) : bool :=
  (UserGifts.quantity (fst b) <? UserGifts.quantity (fst a))
  || ((UserGifts.quantity (fst a) =? UserGifts.quantity (fst b))
      && String.leb (GiftTypes.name (snd a)) (GiftTypes.name (snd b))).

Module Inventory.
Record row := mk
  { quantity : Z;
    gift_type_id : Z;
    name : string;
    emoji : string;
    description : string;
    price : Z;
    category : string }.
End Inventory.

Definition inventory_row (r : UserGifts.row * GiftTypes.row) : Inventory.row :=
  Inventory.mk (UserGifts.quantity (fst r)) (GiftTypes.id (snd r))
               (GiftTypes.name (snd r)) (GiftTypes.emoji (snd r))
               (GiftTypes.description (snd r)) (GiftTypes.price (snd r))
               (GiftTypes.category (snd r)).

Definition select_inventory (userId : Z) (db : Db) : list Inventory.row :=
  map inventory_row
      (order_by by_category_name (filter (held_by userId) (join_user_gifts db))).

Definition inventory (user : option Z)
  : Db -> Db * response (list Inventory.row) :=
  route
    match user with
    | None => respond (Error 401 "User not authenticated")
    | Some userId =>
        inventory <- query (select_inventory userId) ;;
        ret (Json inventory)
    end.

Module Sync.
Record row := mk
  { id : Z;
    name : string;
    emoji : string;
    category : string;
    quantity : Z }.
End Sync.

Definition sync_row (r : UserGifts.row * GiftTypes.row) : Sync.row :=
  Sync.mk (GiftTypes.id (snd r)) (GiftTypes.name (snd r))
          (GiftTypes.emoji (snd r)) (GiftTypes.category (snd r))
          (UserGifts.quantity (fst r)).

Definition select_sync_inventory (userId : Z) (db : Db) : list Sync.row :=
  map sync_row
      (order_by by_quantity_desc_name
                (filter (held_by userId) (join_user_gifts db))).

(** The [inventory] member of the sync reply; [recentSent] and [syncTime]
    are not modelled.  [deviceId] is [None] when the body carries none;
    [if (deviceId)] holds for a string that is not empty. *)
Definition sync (user : option Z) (deviceId : option string)
  : Db -> Db * response (list Sync.row) :=
  route
    match user with
    | None => respond (Error 401 "User not authenticated")
    | Some userId =>
        match deviceId with
        | Some (String c d) => run (update_device_id (String c d) userId)
        | Some EmptyString | None => ret tt
        end ;;;
        inventory <- query (select_sync_inventory userId) ;;
        ret (Json inventory)
    end.

(** ** Redemption *)

(** Modelled from the spec: the outcomes of [redeem] in section 4.3, the
    redeemed transaction or one of the errors [NotFound] and
    [AlreadyRedeemed] of section 7. *)
Inductive RedeemResult : Type :=
| Redeemed (t : Transactions.row)
| NotFound
| AlreadyRedeemed.

(** Modelled from the spec: resolution of a [redemptionCodeOrTransactionId]
    to its transaction (section 4.3); the partner routes that do it are not
    among the sources. *)
Definition names_transaction (code : string) (t : Transactions.row) : bool :=
  String.eqb (Transactions.qr_code t) code || String.eqb (Transactions.id t) code.

(** Modelled from the spec: the transaction a code or identity is bound
    to, if any. *)
Definition resolve_transaction (code : string) (db : Db)
  : option Transactions.row :=
  find (names_transaction code) (transactions db).

(** Modelled from the spec: the rows the conditional write of section 5,
    "update status to redeemed where status = issued", applies to. *)
Definition still_issued (tid : string) (t : Transactions.row) : bool :=
  String.eqb (Transactions.id t) tid && String.eqb (Transactions.status t) issued.

(** Modelled from the spec: the side effect of a successful redeem on the
    row (section 4.3). *)
Definition mark_redeemed (now : string) (partner : option Z)
    (t : Transactions.row) : Transactions.row :=
  Transactions.mk (Transactions.id t) (Transactions.sender_id t)
                  (Transactions.receiver_email t) (Transactions.gift_type_id t)
                  redeemed (Transactions.qr_code t) (Transactions.message t)
                  (Some now) partner.

(** Modelled from the spec: the conditional write of section 5, with the rows
    it changed; success sets [redeemed_at] to the current time and records
    the redeeming party (section 4.3). *)
Definition redeem_where_issued (tid now : string) (partner : option Z)
    (db : Db) : Db * list Transactions.row :=
  (set_transactions
     (map (fun t => if still_issued tid t then mark_redeemed now partner t else t)
          (transactions db))
     db,
   map (mark_redeemed now partner) (filter (still_issued tid) (transactions db))).

(** Modelled from the spec: [redeem], the operation of the Transfer &
    Redemption Engine that the partner routes implement; those routes are
    not among the sources.  Following sections 4.3 and 5 of the
    specification: an unknown code fails with [NotFound]; the transition is
    one conditional write that applies only while the status is still
    issued, sets [redeemed_at] to the current time and records the redeeming
    party; a write that changed nothing is reported as [AlreadyRedeemed]. *)
Definition redeem (code now : string) (partner : option Z) (db : Db)
  : Db * RedeemResult :=
  match resolve_transaction code db with
  | None => (db, NotFound)
  | Some t =>
      match redeem_where_issued (Transactions.id t) now partner db with
      | (db', []) => (db', AlreadyRedeemed)
      | (db', t' :: _) => (db', Redeemed t')
      end
  end.

(** *** Concurrent callers *)

(** Modelled from the spec: section 5 has many [redeem] calls in flight at
    once, racing at the storage layer.  A call is a thread that takes two
    atomic storage steps, the resolution of its code and the conditional
    write; a schedule interleaves the steps of the calls in any order. *)
Inductive thread : Type :=
| Calling (code now : string) (partner : option Z)
| Resolved (tid now : string) (partner : option Z)
| Returned (r : RedeemResult).

(** Modelled from the spec: the next storage step of one [redeem] call. *)
Definition thread_step (th : thread) (db : Db) : Db * thread :=
  match th with
  | Calling code now partner =>
      match resolve_transaction code db with
      | None => (db, Returned NotFound)
      | Some t => (db, Resolved (Transactions.id t) now partner)
      end
  | Resolved tid now partner =>
      match redeem_where_issued tid now partner db with
      | (db', []) => (db', Returned AlreadyRedeemed)
      | (db', t' :: _) => (db', Returned (Redeemed t'))
      end
  | Returned r => (db, Returned r)
  end.

(** Modelled from the spec: one scheduling decision, the [i]-th call takes
    its next step. *)
Fixpoint step_nth (i : nat) (ths : list thread) (db : Db)
  : Db * list thread :=
  match ths, i with
  | [], _ => (db, [])
  | th :: rest, O =>
      let (db', th') := thread_step th db in (db', th' :: rest)
  | th :: rest, S i' =>
      let (db', rest') := step_nth i' rest db in (db', th :: rest')
  end.

(** Modelled from the spec: a run of the calls under a schedule. *)
Fixpoint run_schedule (s : list nat) (ths : list thread) (db : Db)
  : Db * list thread :=
  match s with
  | [] => (db, ths)
  | i :: s' =>
      let (db', ths') := step_nth i ths db in run_schedule s' ths' db'
  end.

Definition is_returned (th : thread) : bool :=
  match th with Returned _ => true | _ => false end.
Definition is_success (th : thread) : bool :=
  match th with Returned (Redeemed _) => true | _ => false end.
Definition is_already_redeemed (th : thread) : bool :=
  match th with Returned AlreadyRedeemed => true | _ => false end.

Definition count (p : thread -> bool) (ths : list thread) : nat :=
  List.length (filter p ths).

(** ** Ledger views and whole-system steps *)

(** The balance of an account for a gift type: the quantity of the row the
    purchase route's lookup returns, and zero when there is none. *)
Definition balance (uid gid : Z) (db : Db) : Z :=
  match select_user_gift uid gid db with
  | Some r => UserGifts.quantity r
  | None => 0
  end.

(** At most one inventory row per account and gift type. *)
Definition row_key (r : UserGifts.row) : Z * Z :=
  (UserGifts.user_id r, UserGifts.gift_type_id r).

Definition unique_keys (db : Db) : Prop :=
  NoDup (map row_key (user_gifts db)).

(** Every inventory row counts zero or more units. *)
Definition nonnegative (db : Db) : Prop :=
  Forall (fun r => 0 <= UserGifts.quantity r) (user_gifts db).

(** Every redemption code is the one [send] derives from the identity. *)
Definition codes_bound (db : Db) : Prop :=
  Forall (fun t => Transactions.qr_code t = qrCodeData (Transactions.id t))
         (transactions db).

(** A store in which nothing has been bought or sent yet. *)
Definition fresh (db : Db) : Prop :=
  user_gifts db = [] /\ transactions db = [] /\ purchases db = [].

Inductive op : Type :=
| Purchase (user : option Z) (items : option (list Item)) (purchaseId : string)
| Send (user : option Z) (req : SendRequest) (transactionId : string)
| Sync (user : option Z) (deviceId : option string)
| Redeem (code now : string) (partner : option Z).

Section Exec.
Variable toDataURL : string -> option string.

Definition exec (o : op) (db : Db) : Db :=
  match o with
  | Purchase user items purchaseId => fst (purchase user items purchaseId db)
  | Send user req transactionId => fst (send toDataURL user req transactionId db)
  | Sync user deviceId => fst (sync user deviceId db)
  | Redeem code now partner => fst (redeem code now partner db)
  end.

Inductive reachable (db0 : Db) : Db -> Prop :=
| reach_init : reachable db0 db0
| reach_step db o : reachable db0 db -> reachable db0 (exec o db).
End Exec.

(** The only change a transaction row may undergo. *)
Definition transition_ok (t t' : Transactions.row) : Prop :=
  Transactions.id t' = Transactions.id t /\
  (t' = t \/
   (Transactions.status t = issued /\ Transactions.status t' = redeemed)).

Definition evolves (db db' : Db) : Prop :=
  exists old new,
    transactions db' = old ++ new /\
    Forall2 transition_ok (transactions db) old.

(** ** Notions the properties are stated with *)

(** A line item whose gift type resolves to an active catalogue entry. *)
Definition resolves (db : Db) (it : Item) : Prop :=
  select_active_gift_type (giftTypeId it) db <> None.

(** Same catalogue, same accounts, same transactions, same receipts. *)
Definition same_but_inventory (db db' : Db) : Prop :=
  users db' = users db /\ gift_types db' = gift_types db /\
  transactions db' = transactions db /\ purchases db' = purchases db.

(** The store with the [active] flag of every catalogue entry rewritten. *)
Definition set_active (f : GiftTypes.row -> bool) (g : GiftTypes.row)
  : GiftTypes.row :=
  GiftTypes.mk (GiftTypes.id g) (GiftTypes.name g) (GiftTypes.emoji g)
               (GiftTypes.description g) (GiftTypes.price g)
               (GiftTypes.category g) (f g).

Definition with_active (f : GiftTypes.row -> bool) (db : Db) : Db :=
  mkDb (users db) (map (set_active f) (gift_types db)) (user_gifts db)
       (transactions db) (purchases db).

Section Independence.
Variable toDataURL : string -> option string.

(** [t] is the row some successful send added. *)
Definition created_by_send (t : Transactions.row) : Prop :=
  exists user req transactionId db db' body,
    send toDataURL user req transactionId db = (db', Json body) /\
    transactions db' = transactions db ++ [t].

(** Two sends can give the same identity different codes. *)
Definition identity_leaves_code_open : Prop :=
  exists t1 t2,
    created_by_send t1 /\ created_by_send t2 /\
    Transactions.id t1 = Transactions.id t2 /\
    Transactions.qr_code t1 <> Transactions.qr_code t2.

(** Two sends can bind the same code to different identities. *)
Definition code_leaves_identity_open : Prop :=
  exists t1 t2,
    created_by_send t1 /\ created_by_send t2 /\
    Transactions.qr_code t1 = Transactions.qr_code t2 /\
    Transactions.id t1 <> Transactions.id t2.
End Independence.

(** "Ordered by category then name", on the rows of the inventory reply and
    on the rows of the sync reply. *)
Definition category_then_name (a b : Inventory.row) : Prop :=
  String.ltb (Inventory.category a) (Inventory.category b) = true \/
  (Inventory.category a = Inventory.category b /\
   String.leb (Inventory.name a) (Inventory.name b) = true).

Definition sync_category_then_name (a b : Sync.row) : Prop :=
  String.ltb (Sync.category a) (Sync.category b) = true \/
  (Sync.category a = Sync.category b /\
   String.leb (Sync.name a) (Sync.name b) = true).

(** "Ordered by quantity, largest first, then name". *)
Definition quantity_desc_then_name (a b : Sync.row) : Prop :=
  Sync.quantity b < Sync.quantity a \/
  (Sync.quantity a = Sync.quantity b /\
   String.leb (Sync.name a) (Sync.name b) = true).

(** An inventory row of the account, with units left, joined with its
    catalogue entry. *)
Definition held_entry (userId : Z) (db : Db)
    (r : UserGifts.row * GiftTypes.row) : Prop :=
  In (fst r) (user_gifts db) /\ In (snd r) (gift_types db) /\
  UserGifts.gift_type_id (fst r) = GiftTypes.id (snd r) /\
  UserGifts.user_id (fst r) = userId /\
  0 < UserGifts.quantity (fst r).

(** A two-key comparison: first key strictly smaller, or first keys equal
    and second key no larger.  Both [ORDER BY] clauses have this shape. *)
Definition two_keys {A K : Type} (key : A -> K) (ltb eqb : K -> K -> bool)
    (leb2 : A -> A -> bool) (a b : A) : bool :=
  ltb (key a) (key b) || (eqb (key a) (key b) && leb2 a b).

(** What a call in flight on [code], bound to transaction [tid], can look
    like: it never holds another code or identity, and never [NotFound]. *)
Definition ok_thread (code tid : string) (th : thread) : Prop :=
  match th with
  | Calling c _ _ => c = code
  | Resolved x _ _ => x = tid
  | Returned NotFound => False
  | Returned _ => True
  end.

(** Storage steps a call still has to take. *)
Definition steps_left (th : thread) : nat :=
  match th with
  | Calling _ _ _ => 2
  | Resolved _ _ _ => 1
  | Returned _ => 0
  end.

(** ** A small store for worked examples

    The demo user and four entries of the catalogue literal of
    [insertSampleData],
    one of them switched off. *)
Module Demo.
Definition demo_user : Users.row :=
  Users.mk 1 "demo@cadeautjes.app" "Demo User" None.

Definition biertje : GiftTypes.row :=
  GiftTypes.mk 1 "Biertje" "🍺" "Een lekker biertje bij deelnemende cafés"
               350 "drinks" true.
Definition wijntje : GiftTypes.row :=
  GiftTypes.mk 2 "Wijntje" "🍷" "Een glas wijn bij restaurants"
               450 "drinks" true.
Definition koffie : GiftTypes.row :=
  GiftTypes.mk 3 "Koffie" "☕" "Verse koffie bij coffeeshops"
               275 "drinks" false.
Definition taartje : GiftTypes.row :=
  GiftTypes.mk 6 "Taartje" "🍰" "Een stuk taart bij bakkerij"
               375 "food" true.

Definition catalogue : list GiftTypes.row :=
  [biertje; wijntje; koffie; taartje].

Definition db0 : Db := mkDb [demo_user] catalogue [] [] [].

(** The demo user holds these rows. *)
Definition holding (rows : list UserGifts.row) : Db :=
  set_user_gifts rows db0.

Definition toDataURL (s : string) : option string :=
  Some ("data:image/png;base64," ++ s)%string.

Definition send_request (gid : Z) : SendRequest :=
  mkSendRequest (Some gid) (Some "friend@example.org"%string) None.

(** The store after the demo user, holding three Biertjes, sent one. *)
Definition sent : Db :=
  fst (send toDataURL (Some 1) (send_request 1) "t1"
            (holding [UserGifts.mk 1 1 3])).

Definition sent_transaction : Transactions.row :=
  Transactions.mk "t1" 1 (Some "friend@example.org"%string) 1 issued
                  "CADEAUTJE-t1" None None None.

(** One Biertje and five Taartjes. *)
Definition mixed : Db :=
  holding [UserGifts.mk 1 1 1; UserGifts.mk 1 6 5].
End Demo.

(** ** [GET /claim/:transactionId] *)

(** [FROM transactions t JOIN gift_types gt ON t.gift_type_id = gt.id
     JOIN users u ON t.sender_id = u.id] *)
Definition join_transactions (db : Db)
  : list (Transactions.row * GiftTypes.row * Users.row) :=
  flat_map
    (fun t =>
       flat_map
         (fun gt =>
            map (fun u => (t, gt, u))
                (filter (fun u => Transactions.sender_id t =? Users.id u)
                        (users db)))
         (filter (fun gt => Transactions.gift_type_id t =? GiftTypes.id gt)
                 (gift_types db)))
    (transactions db).

(** The joined row [WHERE t.id = ?] that [get] returns, if any. *)
Definition select_claim (transactionId : string) (db : Db)
  : option (Transactions.row * GiftTypes.row * Users.row) :=
  find (fun r => String.eqb (Transactions.id (fst (fst r))) transactionId)
       (join_transactions db).

(** The [gift] object of the reply; [createdAt] is a column the model does
    not carry. *)
Record ClaimBody := mkClaimBody
  { cb_id : string;
    cb_name : string;
    cb_emoji : string;
    cb_description : string;
    cb_price : Z;
    cb_message : option string;
    cb_senderName : string;
    cb_qrCode : string }.

Section Claim.
Variable toDataURL : string -> option string.

Definition claim (transactionId : string) : Db -> Db * response ClaimBody :=
  route
    (transaction <- query (select_claim transactionId) ;;
     match transaction with
     | None => respond (Error 404 "Gift not found")
     | Some (t, gt, u) =>
         if String.eqb (Transactions.status t) redeemed
         then respond (Error 410 "Gift already redeemed")
         else
           match toDataURL (Transactions.qr_code t) with
           | None => respond internal_error
           | Some qrCodeDataURL =>
               ret (Json (mkClaimBody (Transactions.id t) (GiftTypes.name gt)
                            (GiftTypes.emoji gt) (GiftTypes.description gt)
                            (GiftTypes.price gt) (Transactions.message t)
                            (Users.name u) qrCodeDataURL))
           end
     end).
End Claim.

(** ** Further notions *)

(** Units of a gift type an account has sent: its rows in [transactions]. *)
Definition sent_units (uid gid : Z) (db : Db) : Z :=
  Z.of_nat
    (List.length
       (filter (fun t => (Transactions.sender_id t =? uid)
                         && (Transactions.gift_type_id t =? gid))
               (transactions db))).

(** Units of a gift type a purchase request asks for. *)
Definition ordered_quantity (gid : Z) (items : list Item) : Z :=
  fold_right
    (fun it acc => if giftTypeId it =? gid then quantity it + acc else acc)
    0 items.

(** Price times quantity, summed over the items whose gift type is on
    sale. *)
Definition order_total (db : Db) (items : list Item) : Z :=
  fold_right
    (fun it acc =>
       match select_active_gift_type (giftTypeId it) db with
       | Some g => GiftTypes.price g * quantity it + acc
       | None => acc
       end)
    0 items.

(** Primary keys of the catalogue and of the transactions are distinct. *)
Definition catalogue_keys_unique (db : Db) : Prop :=
  NoDup (map GiftTypes.id (gift_types db)).

Definition transaction_keys_unique (db : Db) : Prop :=
  NoDup (map Transactions.id (transactions db)).

(** A second small store: two accounts, one of them holding gifts. *)
Module Tour.
Definition anna : Users.row := Users.mk 2 "anna@example.org" "Anna" None.

Definition db0 : Db :=
  mkDb [Demo.demo_user; anna] Demo.catalogue
       [UserGifts.mk 1 1 2; UserGifts.mk 2 1 4] [] [].

(** A gift the demo user sent and a merchant has honoured since. *)
Definition honoured : Transactions.row :=
  Transactions.mk "t1" 1 (Some "friend@example.org"%string) 1 redeemed
                  "CADEAUTJE-t1" None (Some "2026-01-01T10:00:00Z"%string)
                  (Some 7).

Definition after_redemption : Db :=
  mkDb [Demo.demo_user; anna] Demo.catalogue
       [UserGifts.mk 1 1 2; UserGifts.mk 2 1 4] [honoured] [].
End Tour.

(** ** Numbers as the store keeps them

    A JS number is an IEEE 754 double.  The routes receive quantities as JS
    numbers; the driver binds a JS number as a double; and the [quantity]
    column has INTEGER affinity: SQLite keeps a value there as a 64-bit
    integer when that is exact and strictly between [-2^63] and [2^63], and
    as a double otherwise.  A quantity is written as the whole number it
    denotes, so requests and rows with fractional quantities are not
    covered, and neither are values beyond the finite doubles. *)

(** The double nearest to a whole number: 53 significant bits, ties to the
    even significand. *)
Definition to_double (z : Z) : Z :=
  let a := Z.abs z in
  let e := Z.log2 a - 52 in
  if e <=? 0 then z
  else
    let q := Z.shiftr a e in
    let r := Z.land a (Z.ones e) in
    let half := Z.shiftl 1 (e - 1) in
    let q' := if r <? half then q
              else if half <? r then q + 1
              else if Z.even q then q else q + 1 in
    Z.sgn z * Z.shiftl q' e.

(** The whole numbers up to which every whole number is a double. *)
Definition safe_integer (z : Z) : Prop := Z.abs z <= 2 ^ 53.

(** The values the [quantity] column keeps as 64-bit integers.  ([-2^63]
    can be kept either way; both ways give the same results below.) *)
Definition kept_as_integer (v : Z) : bool :=
  (- 2 ^ 63 <? v) && (v <? 2 ^ 63).

(** [quantity + ?] with a bound JS number: the stored value and the
    parameter are added as doubles. *)
Definition plus_number (v x : Z) : Z :=
  to_double (to_double v + to_double x).

(** [quantity - 1]: integer subtraction on a stored integer, subtraction of
    doubles on a stored double and when the integer subtraction overflows. *)
Definition minus_one (v : Z) : Z :=
  if kept_as_integer v then v - 1 else to_double (to_double v - 1).

(** Amounts of money are held in cents.  A price of a whole number of
    quarters (25 cents) is a double, and so is a multiple of it while it has
    at most 53 significant bits; [js_times] and [js_plus] are the product
    and the sum of doubles on such amounts, computed in quarters.  A price
    that is not a whole number of quarters (0.10, say) is no double, and
    these two do not describe what JS computes from it. *)
Definition js_times (price q : Z) : Z :=
  25 * to_double (to_double (price / 25) * to_double q).

Definition js_plus (a b : Z) : Z :=
  25 * to_double (a / 25 + b / 25).

(** The routes with the numbers as the store keeps them.  What is not
    redefined here is as above. *)
Module Stored.

(** [UPDATE user_gifts SET quantity = quantity + ?
     WHERE user_id = ? AND gift_type_id = ?] *)
Definition add_quantity (q uid gid : Z) (r : UserGifts.row) : UserGifts.row :=
  if user_gift_key uid gid r
  then UserGifts.mk (UserGifts.user_id r) (UserGifts.gift_type_id r)
                    (plus_number (UserGifts.quantity r) q)
  else r.

Definition update_user_gift_add (q uid gid : Z) (db : Db) : Db :=
  set_user_gifts (map (add_quantity q uid gid) (user_gifts db)) db.

(** [UPDATE user_gifts SET quantity = quantity - 1
     WHERE user_id = ? AND gift_type_id = ?] *)
Definition decrement_quantity (uid gid : Z) (r : UserGifts.row)
  : UserGifts.row :=
  if user_gift_key uid gid r
  then UserGifts.mk (UserGifts.user_id r) (UserGifts.gift_type_id r)
                    (minus_one (UserGifts.quantity r))
  else r.

Definition update_user_gift_decrement (uid gid : Z) (db : Db) : Db :=
  set_user_gifts (map (decrement_quantity uid gid) (user_gifts db)) db.

(** [INSERT INTO user_gifts (user_id, gift_type_id, quantity)
     VALUES (?, ?, ?)] *)
Definition insert_user_gift (uid gid q : Z) (db : Db) : option Db :=
  if user_exists uid db && gift_type_exists gid db
  then Some (set_user_gifts
               (user_gifts db ++ [UserGifts.mk uid gid (to_double q)]) db)
  else None.

(** The body of [for (const item of items)], threaded with [totalAmount]. *)
Fixpoint purchase_items (userId : Z) (items : list Item) (totalAmount : Z)
  : handler PurchaseBody Z :=
  match items with
  | [] => ret totalAmount
  | item :: rest =>
      giftType <- query (select_active_gift_type (giftTypeId item)) ;;
      match giftType with
      | None =>
          respond (Error 400 ("Invalid gift type: " ++ show (giftTypeId item)))
      | Some giftType =>
          let totalAmount :=
            js_plus totalAmount
                    (js_times (GiftTypes.price giftType) (quantity item)) in
          existingInventory <- query (select_user_gift userId (giftTypeId item)) ;;
          match existingInventory with
          | Some _ =>
              run (update_user_gift_add (quantity item) userId (giftTypeId item))
          | None =>
              run_checked
                (insert_user_gift userId (giftTypeId item) (quantity item))
          end ;;;
          purchase_items userId rest totalAmount
      end
  end.

Definition purchase (user : option Z) (items : option (list Item))
    (purchaseId : string) : Db -> Db * response PurchaseBody :=
  route
    match user with
    | None => respond (Error 401 "User not authenticated")
    | Some userId =>
        match items with
        | None | Some [] => respond (Error 400 "Items are required")
        | Some items =>
            totalAmount <- purchase_items userId items 0 ;;
            run_checked (insert_purchase purchaseId userId items totalAmount) ;;;
            ret (Json (mkPurchaseBody "Purchase successful" purchaseId
                                      totalAmount items))
        end
    end.

Section Send.

Variable toDataURL : string -> option string.

Definition send (user : option Z) (req : SendRequest)
    (transactionId : string) : Db -> Db * response SendBody :=
  route
    match user with
    | None => respond (Error 401 "User not authenticated")
    | Some userId =>
        match sr_giftTypeId req with
        | None | Some 0 => respond (Error 400 "Gift type ID is required")
        | Some giftTypeId =>
            userGift <- query (select_available_user_gift userId giftTypeId) ;;
            match userGift with
            | None =>
                respond (Error 400 "You do not have this gift available")
            | Some _ =>
                giftType <- query (select_gift_type giftTypeId) ;;
                match toDataURL (qrCodeData transactionId) with
                | None => respond internal_error
                | Some qrCodeDataURL =>
                    run_checked
                      (insert_transaction transactionId userId
                         (sr_receiverEmail req) giftTypeId
                         (qrCodeData transactionId) (sr_message req)) ;;;
                    run (update_user_gift_decrement userId giftTypeId) ;;;
                    match giftType with
                    | None => respond internal_error
                    | Some giftType =>
                        ret (Json
                               (mkSendBody "Gift sent successfully"
                                  transactionId
                                  (mkGiftSummary
                                     (GiftTypes.name giftType)
                                     (GiftTypes.emoji giftType)
                                     (GiftTypes.description giftType))
                                  qrCodeDataURL
                                  ("https://cadeautjes.app/claim/"
                                     ++ transactionId)))
                    end
                end
            end
        end
    end.

End Send.

End Stored.

(** *** Ranges in which the numbers are exact *)

(** The units of a gift type a request asks for, signs left out. *)
Definition exposure (gid : Z) (items : list Item) : Z :=
  fold_right
    (fun it acc =>
       if giftTypeId it =? gid then Z.abs (quantity it) + acc else acc)
    0 items.

(** Crediting [items] to account [uid] never leaves the safe integers: for
    each gift type named, the units asked for, and each row of the account
    for it together with the units asked for, stay within [2^53]. *)
Definition within_safe_range (uid : Z) (items : list Item) (db : Db) : bool :=
  forallb
    (fun it =>
       (exposure (giftTypeId it) items <=? 2 ^ 53)
       && forallb
            (fun r =>
               negb (user_gift_key uid (giftTypeId it) r)
               || (Z.abs (UserGifts.quantity r)
                   + exposure (giftTypeId it) items <=? 2 ^ 53))
            (user_gifts db))
    items.

(** The amounts of the lines of a request, signs left out, summed. *)
Definition order_magnitude (db : Db) (items : list Item) : Z :=
  fold_right
    (fun it acc =>
       match select_active_gift_type (giftTypeId it) db with
       | Some g => Z.abs (GiftTypes.price g * quantity it) + acc
       | None => acc
       end)
    0 items.

(** Every price a request meets is a whole number of quarters. *)
Definition quarter_prices (db : Db) (items : list Item) : bool :=
  forallb
    (fun it =>
       match select_active_gift_type (giftTypeId it) db with
       | Some g => GiftTypes.price g mod 25 =? 0
       | None => true
       end)
    items.

(** The total of a request is computed without rounding: whole quarters,
    and no more than [2^53] of them. *)
Definition whole_quarters (db : Db) (items : list Item) : bool :=
  quarter_prices db items && (order_magnitude db items <=? 25 * 2 ^ 53).

(** Two stores with large unit counts: the demo user bought [10^19]
    Biertjes in one request, or [2^53] of them. *)
Module Large.

End Large.

(** * Properties *)

(** ** Statements on the inventory table *)

Lemma add_quantity_key q uid gid uid' gid' r :
  user_gift_key uid' gid' (add_quantity q uid gid r) = user_gift_key uid' gid' r.
Proof.
  unfold add_quantity. destruct (user_gift_key uid gid r); reflexivity.
Qed.

Lemma find_add_quantity q uid gid uid' gid' l :
  find (user_gift_key uid' gid') (map (add_quantity q uid gid) l)
  = option_map (add_quantity q uid gid) (find (user_gift_key uid' gid') l).
Proof.
  induction l as [|r l IH]; simpl; [reflexivity|].
  rewrite add_quantity_key.
  destruct (user_gift_key uid' gid' r); [reflexivity | exact IH].
Qed.

Lemma balance_update_same q uid gid db r :
  select_user_gift uid gid db = Some r ->
  balance uid gid (update_user_gift_add q uid gid db) = balance uid gid db + q.
Proof.
  unfold balance, select_user_gift, update_user_gift_add. simpl. intros H.
  rewrite find_add_quantity, H. simpl.
  apply find_some in H. destruct H as [_ H].
  unfold add_quantity. rewrite H. reflexivity.
Qed.

Lemma find_app_none {A} (p : A -> bool) l x :
  find p l = None -> find p (l ++ [x]) = if p x then Some x else None.
Proof.
  induction l as [|y l IH]; simpl; [reflexivity|].
  destruct (p y); [discriminate | exact IH].
Qed.

Lemma user_gift_key_refl uid gid q :
  user_gift_key uid gid (UserGifts.mk uid gid q) = true.
Proof. unfold user_gift_key. simpl. now rewrite !Z.eqb_refl. Qed.

Lemma balance_insert_same q uid gid db db' :
  select_user_gift uid gid db = None ->
  insert_user_gift uid gid q db = Some db' ->
  balance uid gid db' = balance uid gid db + q.
Proof.
  unfold balance, select_user_gift, insert_user_gift. intros Hn Hi.
  destruct (user_exists uid db && gift_type_exists gid db); [|discriminate].
  injection Hi as <-. simpl.
  rewrite (find_app_none _ _ _ Hn), user_gift_key_refl, Hn. reflexivity.
Qed.

(** ** [POST /purchase] *)

Lemma select_active_exists gid db g :
  select_active_gift_type gid db = Some g -> gift_type_exists gid db = true.
Proof.
  unfold select_active_gift_type, gift_type_exists. intros H.
  apply find_some in H. destruct H as [Hin H].
  apply andb_prop in H. apply existsb_exists. exists g. tauto.
Qed.

Lemma same_but_inventory_refl db : same_but_inventory db db.
Proof. repeat split. Qed.

Lemma same_but_inventory_trans a b c :
  same_but_inventory a b -> same_but_inventory b c -> same_but_inventory a c.
Proof.
  unfold same_but_inventory. intuition congruence.
Qed.

Lemma same_but_inventory_set l db : same_but_inventory db (set_user_gifts l db).
Proof. repeat split. Qed.

Lemma insert_user_gift_frame uid gid q db db' :
  insert_user_gift uid gid q db = Some db' -> same_but_inventory db db'.
Proof.
  unfold insert_user_gift.
  destruct (user_exists uid db && gift_type_exists gid db); [|discriminate].
  intros H. injection H as <-. apply same_but_inventory_set.
Qed.

Lemma select_active_frame gid db db' :
  same_but_inventory db db' ->
  select_active_gift_type gid db' = select_active_gift_type gid db.
Proof. unfold select_active_gift_type. intros (_ & -> & _). reflexivity. Qed.

Lemma user_exists_frame uid db db' :
  same_but_inventory db db' -> user_exists uid db' = user_exists uid db.
Proof. unfold user_exists. intros (-> & _). reflexivity. Qed.

(** The loop touches nothing but the inventory, whatever way it ends. *)
Lemma purchase_items_frame uid items :
  forall total db, same_but_inventory db (fst (purchase_items uid items total db)).
Proof.
  induction items as [|it items IH]; intros total db; simpl.
  - apply same_but_inventory_refl.
  - unfold bind, query, respond at 1.
    destruct (select_active_gift_type (giftTypeId it) db) as [g|]; simpl;
      [|apply same_but_inventory_refl].
    destruct (select_user_gift uid (giftTypeId it) db) as [r|]; simpl.
    + eapply same_but_inventory_trans; [|apply IH]. apply same_but_inventory_set.
    + unfold run_checked.
      destruct (insert_user_gift uid (giftTypeId it) (quantity it) db)
        as [db1|] eqn:Hi; simpl; [|apply same_but_inventory_refl].
      eapply same_but_inventory_trans; [|apply IH].
      eapply insert_user_gift_frame; eassumption.
Qed.

(** With a known account the loop ends early only at an item that does not
    resolve, and then with a 400 reply; it runs to the end exactly when every
    item resolves. *)
Lemma purchase_items_outcome uid items :
  forall total db,
    user_exists uid db = true ->
    match snd (purchase_items uid items total db) with
    | inl _ => Forall (resolves db) items
    | inr r =>
        exists it, In it items /\ ~ resolves db it /\
          r = Error 400 ("Invalid gift type: " ++ show (giftTypeId it))
    end.
Proof.
  induction items as [|it items IH]; intros total db Hu; simpl.
  - constructor.
  - unfold bind, query at 1.
    destruct (select_active_gift_type (giftTypeId it) db) as [g|] eqn:Hg; simpl.
    + assert (Hr : resolves db it) by (unfold resolves; congruence).
      assert (Hstep : forall db1, same_but_inventory db db1 ->
        match snd (purchase_items uid items
                     (total + GiftTypes.price g * quantity it) db1) with
        | inl _ => Forall (resolves db) (it :: items)
        | inr r => exists it0, (it = it0 \/ In it0 items) /\ ~ resolves db it0 /\
            r = Error 400 ("Invalid gift type: " ++ show (giftTypeId it0))
        end).
      { intros db1 Hf.
        specialize (IH (total + GiftTypes.price g * quantity it) db1).
        rewrite (user_exists_frame _ _ _ Hf) in IH. specialize (IH Hu).
        destruct (snd (purchase_items uid items _ db1)) as [t|r].
        - constructor; [exact Hr|].
          eapply Forall_impl; [|exact IH]. unfold resolves. intros a.
          now rewrite (select_active_frame _ _ _ Hf).
        - destruct IH as (it0 & Hin & Hn & ->). exists it0. split; [now right|].
          split; [|reflexivity]. unfold resolves in *.
          now rewrite (select_active_frame _ _ _ Hf) in Hn. }
      destruct (select_user_gift uid (giftTypeId it) db) as [r|]; simpl.
      * apply Hstep. apply same_but_inventory_set.
      * unfold run_checked, insert_user_gift. rewrite Hu.
        rewrite (select_active_exists _ _ _ Hg). simpl.
        apply Hstep. apply same_but_inventory_set.
    + exists it. split; [now left|]. split; [|reflexivity].
      unfold resolves. congruence.
Qed.

Lemma balance_set_purchases uid gid l db :
  balance uid gid (set_purchases l db) = balance uid gid db.
Proof. reflexivity. Qed.

Lemma insert_purchase_some pid uid its total db db' :
  insert_purchase pid uid its total db = Some db' ->
  db' = set_purchases
          (purchases db ++ [Purchases.mk pid uid its total "completed"]) db.
Proof.
  unfold insert_purchase.
  destruct (existsb _ (purchases db)); [discriminate|].
  destruct (user_exists uid db); [|discriminate].
  intros H. now injection H as <-.
Qed.

Lemma record_purchase_ok pid uid its total db1 db' body :
  route (run_checked (insert_purchase pid uid its total) ;;;
         ret (Json (mkPurchaseBody "Purchase successful" pid total its))) db1
  = (db', Json body) ->
  db' = set_purchases
          (purchases db1 ++ [Purchases.mk pid uid its total "completed"]) db1
  /\ body = mkPurchaseBody "Purchase successful" pid total its.
Proof.
  unfold route, bind, run_checked, ret.
  destruct (insert_purchase pid uid its total db1) as [db2|] eqn:Hi;
    [|discriminate].
  apply insert_purchase_some in Hi. intros H. injection H as <- <-.
  now split.
Qed.

(** *** What the purchase route rejects *)

Lemma purchase_rejects_unauthenticated items purchaseId db :
  purchase None items purchaseId db = (db, Error 401 "User not authenticated").
Proof. reflexivity. Qed.

Lemma purchase_rejects_missing_items uid purchaseId db :
  purchase (Some uid) None purchaseId db = (db, Error 400 "Items are required").
Proof. reflexivity. Qed.

Lemma purchase_rejects_empty_items uid purchaseId db :
  purchase (Some uid) (Some []) purchaseId db
  = (db, Error 400 "Items are required").
Proof. reflexivity. Qed.

(** An item whose gift type is unknown or switched off makes the purchase
    of a known account end with a 400 reply and without a receipt. *)
Lemma purchase_rejects_unresolved_item uid items purchaseId db :
  user_exists uid db = true ->
  Exists (fun it => ~ resolves db it) items ->
  exists it,
    In it items /\ ~ resolves db it /\
    snd (purchase (Some uid) (Some items) purchaseId db)
    = Error 400 ("Invalid gift type: " ++ show (giftTypeId it)) /\
    purchases (fst (purchase (Some uid) (Some items) purchaseId db))
    = purchases db.
Proof.
  intros Hu Hex.
  destruct items as [|it0 items]; [inversion Hex|].
  pose proof (purchase_items_outcome uid (it0 :: items) 0 db Hu) as Ho.
  pose proof (purchase_items_frame uid (it0 :: items) 0 db) as Hf.
  unfold purchase, route, bind.
  destruct (purchase_items uid (it0 :: items) 0 db) as [db1 [t|r]];
    simpl in Ho, Hf.
  - exfalso. apply Exists_exists in Hex. destruct Hex as (it & Hin & Hn).
    rewrite Forall_forall in Ho. exact (Hn (Ho it Hin)).
  - destruct Ho as (it & Hin & Hn & ->). exists it. simpl.
    repeat split; try assumption. apply Hf.
Qed.

(** C7: at the request [[{ giftTypeId: 1, quantity: -2 }]] (and likewise at
    quantity [0]) the purchase route does not reject: it replies "Purchase
    successful" with a total of -7.00 (resp. 0.00), writes a receipt, and
    leaves the buyer with a balance of -2 (resp. 0).  The loop checks the
    gift type of each item and never its quantity. *)
Theorem purchase_accepts_nonpositive_quantity :
  purchase (Some 1) (Some [mkItem 1 (-2)]) "p1" Demo.db0
  = (mkDb [Demo.demo_user] Demo.catalogue
          [UserGifts.mk 1 1 (-2)] []
          [Purchases.mk "p1" 1 [mkItem 1 (-2)] (-700) "completed"],
     Json (mkPurchaseBody "Purchase successful" "p1" (-700) [mkItem 1 (-2)]))
  /\
  purchase (Some 1) (Some [mkItem 1 0]) "p2" Demo.db0
  = (mkDb [Demo.demo_user] Demo.catalogue
          [UserGifts.mk 1 1 0] []
          [Purchases.mk "p2" 1 [mkItem 1 0] 0 "completed"],
     Json (mkPurchaseBody "Purchase successful" "p2" 0 [mkItem 1 0])).
Proof. split; reflexivity. Qed.

(** *** Failure part-way through the items *)

(** Whatever the store, a first item that resolves followed by one that does
    not leaves the first item credited, although the reply is a 400 and no
    receipt is written. *)
Lemma purchase_credits_before_rejecting uid G q bad q' purchaseId db :
  user_exists uid db = true ->
  resolves db (mkItem G q) ->
  ~ resolves db (mkItem bad q') ->
  let (db', r) :=
    purchase (Some uid) (Some [mkItem G q; mkItem bad q']) purchaseId db in
  r = Error 400 ("Invalid gift type: " ++ show bad) /\
  balance uid G db' = balance uid G db + q /\
  purchases db' = purchases db.
Proof.
  intros Hu HG Hbad. unfold resolves in HG, Hbad. simpl in HG, Hbad.
  destruct (select_active_gift_type G db) as [g|] eqn:Hg; [clear HG|tauto].
  assert (Hb : select_active_gift_type bad db = None).
  { destruct (select_active_gift_type bad db); [exfalso; apply Hbad|];
      congruence. }
  unfold purchase, route. simpl.
  unfold bind at 1 2, query at 1. rewrite Hg.
  unfold bind at 1 2, query at 1.
  destruct (select_user_gift uid G db) as [r|] eqn:Hs.
  - unfold bind, run, query, respond. simpl.
    rewrite (select_active_frame bad db (update_user_gift_add q uid G db)
               (same_but_inventory_set _ db)), Hb.
    split; [reflexivity|]. split; [|reflexivity].
    eapply balance_update_same; eassumption.
  - unfold bind at 1, run_checked at 1.
    destruct (insert_user_gift uid G q db) as [db1|] eqn:Hi.
    + pose proof (insert_user_gift_frame _ _ _ _ _ Hi) as Hf.
      unfold bind, query, respond.
      rewrite (select_active_frame bad db db1 Hf), Hb.
      split; [reflexivity|]. split; [|apply Hf].
      eapply balance_insert_same; eassumption.
    + exfalso. unfold insert_user_gift in Hi.
      rewrite Hu, (select_active_exists _ _ _ Hg) in Hi. discriminate.
Qed.

(** C2: at the request [[{ giftTypeId: 1, quantity: 3 },
    { giftTypeId: 999, quantity: 1 }]] on a store without inventory the
    purchase fails with "Invalid gift type: 999" and writes no receipt, yet
    the three units of the first item stay credited to the buyer. *)
Theorem purchase_failure_keeps_credited_prefix :
  user_gifts Demo.db0 = [] /\
  purchase (Some 1) (Some [mkItem 1 3; mkItem 999 1]) "p1" Demo.db0
  = (mkDb [Demo.demo_user] Demo.catalogue [UserGifts.mk 1 1 3] [] [],
     Error 400 "Invalid gift type: 999").
Proof. split; reflexivity. Qed.

(** ** [POST /send] *)

Lemma gift_type_exists_select gid db :
  gift_type_exists gid db = true <-> select_gift_type gid db <> None.
Proof.
  unfold gift_type_exists, select_gift_type. split.
  - intros H Hn. apply existsb_exists in H. destruct H as (g & Hin & Hg).
    eapply find_none in Hn; [|exact Hin]. simpl in Hn. congruence.
  - intros H. destruct (find _ (gift_types db)) as [g|] eqn:Hf; [|congruence].
    apply find_some in Hf. apply existsb_exists. exists g. exact Hf.
Qed.

Lemma insert_transaction_some tid uid rcv gid code msg db db' :
  insert_transaction tid uid rcv gid code msg db = Some db' ->
  db' = set_transactions
          (transactions db ++
           [Transactions.mk tid uid rcv gid issued code msg None None]) db
  /\ (forall t, In t (transactions db) -> Transactions.id t <> tid)
  /\ (forall t, In t (transactions db) -> Transactions.qr_code t <> code)
  /\ user_exists uid db = true /\ gift_type_exists gid db = true.
Proof.
  unfold insert_transaction.
  destruct (existsb (fun t => String.eqb (Transactions.id t) tid) _) eqn:E1;
    [discriminate|].
  destruct (existsb (fun t => String.eqb (Transactions.qr_code t) code) _)
    eqn:E2; [discriminate|].
  destruct (user_exists uid db) eqn:Eu; [|discriminate].
  destruct (gift_type_exists gid db) eqn:Eg; [|discriminate].
  simpl. intros H. injection H as <-.
  split; [reflexivity|]. split; [|split; [|split; reflexivity]].
  - intros t Hin Heq.
    assert (existsb (fun t => String.eqb (Transactions.id t) tid)
                    (transactions db) = true); [|congruence].
    apply existsb_exists. exists t. split; [exact Hin|].
    now apply String.eqb_eq.
  - intros t Hin Heq.
    assert (existsb (fun t => String.eqb (Transactions.qr_code t) code)
                    (transactions db) = true); [|congruence].
    apply existsb_exists. exists t. split; [exact Hin|].
    now apply String.eqb_eq.
Qed.

Lemma existsb_false_intro {A} (p : A -> bool) l :
  (forall x, In x l -> p x = false) -> existsb p l = false.
Proof.
  intros H. destruct (existsb p l) eqn:E; [|reflexivity].
  apply existsb_exists in E. destruct E as (x & Hin & Hp).
  rewrite (H x Hin) in Hp. discriminate.
Qed.

Lemma insert_transaction_ok tid uid rcv gid code msg db :
  (forall t, In t (transactions db) -> Transactions.id t <> tid) ->
  (forall t, In t (transactions db) -> Transactions.qr_code t <> code) ->
  user_exists uid db = true -> gift_type_exists gid db = true ->
  insert_transaction tid uid rcv gid code msg db
  = Some (set_transactions
            (transactions db ++
             [Transactions.mk tid uid rcv gid issued code msg None None]) db).
Proof.
  intros Hid Hcode Hu Hg. unfold insert_transaction.
  rewrite existsb_false_intro, existsb_false_intro, Hu, Hg; [reflexivity| |].
  - intros t Hin. apply String.eqb_neq. auto.
  - intros t Hin. apply String.eqb_neq. auto.
Qed.

(** The code determines the identity it was derived from. *)
Lemma qrCodeData_injective a b : qrCodeData a = qrCodeData b -> a = b.
Proof. unfold qrCodeData. simpl. intros H. now injection H. Qed.

(** Everything a successful send did. *)
Lemma send_json_inv toDataURL user req tid db db' body :
  send toDataURL user req tid db = (db', Json body) ->
  exists uid gid g url,
    user = Some uid /\ sr_giftTypeId req = Some gid /\ gid <> 0 /\
    select_available_user_gift uid gid db <> None /\
    select_gift_type gid db = Some g /\
    toDataURL (qrCodeData tid) = Some url /\
    insert_transaction tid uid (sr_receiverEmail req) gid (qrCodeData tid)
                       (sr_message req) db <> None /\
    db' = update_user_gift_decrement uid gid
            (set_transactions
               (transactions db ++
                [Transactions.mk tid uid (sr_receiverEmail req) gid issued
                                 (qrCodeData tid) (sr_message req) None None])
               db) /\
    body = mkSendBody "Gift sent successfully" tid
             (mkGiftSummary (GiftTypes.name g) (GiftTypes.emoji g)
                            (GiftTypes.description g))
             url ("https://cadeautjes.app/claim/" ++ tid).
Proof.
  unfold send, route. intros H.
  destruct user as [uid|]; [|discriminate].
  destruct (sr_giftTypeId req) as [gid|] eqn:Hreq; [|discriminate].
  assert (Hnz : gid <> 0) by (intros ->; discriminate).
  assert (H' :
    (let (db1, x) :=
       (userGift <- query (select_available_user_gift uid gid) ;;
        match userGift with
        | None => respond (Error 400 "You do not have this gift available")
        | Some _ =>
            giftType <- query (select_gift_type gid) ;;
            match toDataURL (qrCodeData tid) with
            | None => respond internal_error
            | Some qrCodeDataURL =>
                run_checked
                  (insert_transaction tid uid (sr_receiverEmail req) gid
                     (qrCodeData tid) (sr_message req)) ;;;
                run (update_user_gift_decrement uid gid) ;;;
                match giftType with
                | None => respond internal_error
                | Some giftType =>
                    ret (Json
                           (mkSendBody "Gift sent successfully" tid
                              (mkGiftSummary (GiftTypes.name giftType)
                                 (GiftTypes.emoji giftType)
                                 (GiftTypes.description giftType))
                              qrCodeDataURL
                              ("https://cadeautjes.app/claim/" ++ tid)))
                end
            end
        end) db in
     match x with inl r | inr r => (db1, r) end) = (db', Json body)).
  { destruct gid; [congruence | exact H | exact H]. }
  clear H. unfold bind, query, respond, run_checked, run, ret in H'.
  destruct (select_available_user_gift uid gid db) as [r|] eqn:Hav;
    [|discriminate].
  destruct (toDataURL (qrCodeData tid)) as [url|] eqn:Hurl; [|discriminate].
  destruct (insert_transaction tid uid _ gid _ _ db) as [db1|] eqn:Hi;
    [|discriminate].
  destruct (select_gift_type gid db) as [g|] eqn:Hg; [|discriminate].
  injection H' as <- <-.
  pose proof (insert_transaction_some _ _ _ _ _ _ _ _ Hi) as (Hdb1 & _).
  exists uid, gid, g, url. repeat split; congruence.
Qed.

(** When a send goes through. *)
Lemma send_ok toDataURL uid gid g url req tid db db1 :
  sr_giftTypeId req = Some gid -> gid <> 0 ->
  select_available_user_gift uid gid db <> None ->
  select_gift_type gid db = Some g ->
  toDataURL (qrCodeData tid) = Some url ->
  insert_transaction tid uid (sr_receiverEmail req) gid (qrCodeData tid)
                     (sr_message req) db = Some db1 ->
  send toDataURL (Some uid) req tid db
  = (update_user_gift_decrement uid gid db1,
     Json (mkSendBody "Gift sent successfully" tid
             (mkGiftSummary (GiftTypes.name g) (GiftTypes.emoji g)
                            (GiftTypes.description g))
             url ("https://cadeautjes.app/claim/" ++ tid))).
Proof.
  intros Hreq Hnz Hav Hg Hurl Hi. unfold send, route. rewrite Hreq.
  destruct (select_available_user_gift uid gid db) as [r|] eqn:Hr;
    [clear Hav|congruence].
  destruct gid; [congruence| |];
    unfold bind, query, respond, run_checked, run, ret;
    rewrite Hr, Hurl, Hi, Hg; reflexivity.
Qed.

Lemma balance_set_transactions uid gid l db :
  balance uid gid (set_transactions l db) = balance uid gid db.
Proof. reflexivity. Qed.


Lemma balance_decrement uid gid db :
  select_user_gift uid gid db <> None ->
  balance uid gid (update_user_gift_decrement uid gid db)
  = balance uid gid db - 1.
Proof.
  intros H. destruct (select_user_gift uid gid db) as [r|] eqn:Hs;
    [|congruence].
  change (update_user_gift_decrement uid gid db)
    with (update_user_gift_add (-1) uid gid db).
  rewrite (balance_update_same _ _ _ _ _ Hs). lia.
Qed.


(** *** The redemption code and the transaction identity *)

Lemma created_by_send_code toDataURL t :
  created_by_send toDataURL t ->
  Transactions.qr_code t = qrCodeData (Transactions.id t).
Proof.
  intros (user & req & tid & db & db' & body & Hsend & Htx).
  apply send_json_inv in Hsend.
  destruct Hsend as (uid & gid & g & url & _ & _ & _ & _ & _ & _ & _ & -> & _).
  simpl in Htx. apply app_inv_head in Htx. injection Htx as <-. reflexivity.
Qed.

(** C5, as the code has it: the redemption code of every transaction a send
    creates is the text [CADEAUTJE-] followed by the transaction identity;
    two such transactions have the same code exactly when they have the same
    identity, so each of the two values gives away the other. *)
Theorem redemption_code_is_derived_from_identity :
  forall toDataURL t1 t2,
    created_by_send toDataURL t1 ->
    created_by_send toDataURL t2 ->
    Transactions.qr_code t1 = ("CADEAUTJE-" ++ Transactions.id t1)%string /\
    (Transactions.id t1 = Transactions.id t2 <->
     Transactions.qr_code t1 = Transactions.qr_code t2).
Proof.
  intros f t1 t2 H1 H2.
  apply created_by_send_code in H1. apply created_by_send_code in H2.
  split; [exact H1|]. rewrite H1, H2. split.
  - now intros ->.
  - apply qrCodeData_injective.
Qed.

Lemma demo_send_creates :
  created_by_send Demo.toDataURL Demo.sent_transaction.
Proof.
  exists (Some 1), (Demo.send_request 1), "t1"%string,
    (Demo.holding [UserGifts.mk 1 1 3]).
  eexists. eexists. split; reflexivity.
Qed.

Lemma redemption_code_is_derived_from_identity_witness :
  created_by_send Demo.toDataURL Demo.sent_transaction /\
  Transactions.qr_code Demo.sent_transaction
  = ("CADEAUTJE-" ++ Transactions.id Demo.sent_transaction)%string /\
  (Transactions.id Demo.sent_transaction = Transactions.id Demo.sent_transaction
   <->
   Transactions.qr_code Demo.sent_transaction
   = Transactions.qr_code Demo.sent_transaction).
Proof.
  split; [exact demo_send_creates|].
  exact (redemption_code_is_derived_from_identity Demo.toDataURL
           Demo.sent_transaction Demo.sent_transaction
           demo_send_creates demo_send_creates).
Defined.

(** C5 as stated fails: the send of transaction [t1] stores the code
    [CADEAUTJE-t1], and no two sends ever give one identity two codes or one
    code two identities. *)
Lemma redemption_code_not_independent_of_identity :
  (exists db' body,
     send Demo.toDataURL (Some 1) (Demo.send_request 1) "t1"
          (Demo.holding [UserGifts.mk 1 1 3]) = (db', Json body) /\
     map Transactions.id (transactions db') = ["t1"%string] /\
     map Transactions.qr_code (transactions db') = ["CADEAUTJE-t1"%string]) /\
  ~ identity_leaves_code_open Demo.toDataURL /\
  ~ code_leaves_identity_open Demo.toDataURL.
Proof.
  split; [eexists; eexists; repeat split|split].
  - intros (t1 & t2 & H1 & H2 & Hid & Hne).
    apply created_by_send_code in H1. apply created_by_send_code in H2.
    apply Hne. congruence.
  - intros (t1 & t2 & H1 & H2 & Hcode & Hne).
    apply created_by_send_code in H1. apply created_by_send_code in H2.
    apply Hne. apply qrCodeData_injective. congruence.
Qed.

(** *** The [active] flag *)

Lemma select_gift_type_with_active f gid db :
  select_gift_type gid (with_active f db)
  = option_map (set_active f) (select_gift_type gid db).
Proof.
  unfold select_gift_type, with_active. simpl.
  induction (gift_types db) as [|g l IH]; simpl; [reflexivity|].
  destruct (GiftTypes.id g =? gid); [reflexivity | exact IH].
Qed.

Lemma gift_type_exists_with_active f gid db :
  gift_type_exists gid (with_active f db) = gift_type_exists gid db.
Proof.
  unfold gift_type_exists, with_active. simpl.
  induction (gift_types db) as [|g l IH]; simpl; [reflexivity|].
  now rewrite IH.
Qed.

Lemma insert_transaction_with_active f tid uid rcv gid code msg db :
  insert_transaction tid uid rcv gid code msg (with_active f db)
  = option_map (with_active f) (insert_transaction tid uid rcv gid code msg db).
Proof.
  unfold insert_transaction. rewrite gift_type_exists_with_active.
  change (transactions (with_active f db)) with (transactions db).
  change (user_exists uid (with_active f db)) with (user_exists uid db).
  destruct (existsb _ (transactions db)); [reflexivity|].
  destruct (existsb _ (transactions db)); [reflexivity|].
  destruct (user_exists uid db && gift_type_exists gid db); reflexivity.
Qed.

(** Rewriting the flags of the catalogue changes neither the reply of a send
    nor what it writes. *)
Lemma send_with_active toDataURL f user req tid db :
  send toDataURL user req tid (with_active f db)
  = (with_active f (fst (send toDataURL user req tid db)),
     snd (send toDataURL user req tid db)).
Proof.
  unfold send, route.
  destruct user as [uid|]; [|reflexivity].
  destruct (sr_giftTypeId req) as [[|gid|gid]|]; try reflexivity;
    unfold bind, query, respond, run_checked, run, ret;
    change (select_available_user_gift uid ?g (with_active f db))
      with (select_available_user_gift uid g db);
    (destruct (select_available_user_gift uid _ db); [|reflexivity]);
    (destruct (toDataURL (qrCodeData tid)); [|reflexivity]);
    rewrite insert_transaction_with_active, select_gift_type_with_active;
    (destruct (insert_transaction tid uid _ _ _ _ db); [|reflexivity]);
    simpl; (destruct (select_gift_type _ db); reflexivity).
Qed.

(** C10: a send never consults the [active] flag.  Its reply and its writes
    are the same whatever the flags of the catalogue are; in particular an
    account that holds at least one unit of a gift type whose flag is off
    gets a successful reply and one new transaction for that gift type. *)
Theorem send_ignores_active_flag :
  forall toDataURL db A G g r req transactionId,
    user_exists A db = true ->
    select_gift_type G db = Some g ->
    GiftTypes.active g = false ->
    select_available_user_gift A G db = Some r ->
    G <> 0 ->
    sr_giftTypeId req = Some G ->
    toDataURL (qrCodeData transactionId) <> None ->
    codes_bound db ->
    (forall t, In t (transactions db) -> Transactions.id t <> transactionId) ->
    (forall f,
       send toDataURL (Some A) req transactionId (with_active f db)
       = (with_active f (fst (send toDataURL (Some A) req transactionId db)),
          snd (send toDataURL (Some A) req transactionId db))) /\
    exists db' body t,
      send toDataURL (Some A) req transactionId db = (db', Json body) /\
      transactions db' = transactions db ++ [t] /\
      Transactions.id t = transactionId /\
      Transactions.gift_type_id t = G /\
      Transactions.status t = issued /\
      balance A G db' = balance A G db - 1.
Proof.
  intros toDataURL db A G g r req tid Hu Hg Hoff Hav Hnz Hreq Hurl Hbound Hfresh.
  split; [intros f; apply send_with_active|].
  destruct (toDataURL (qrCodeData tid)) as [url|] eqn:Eurl; [|congruence].
  assert (Hex : gift_type_exists G db = true)
    by (apply gift_type_exists_select; congruence).
  assert (Hcode : forall t0, In t0 (transactions db) ->
                             Transactions.qr_code t0 <> qrCodeData tid).
  { intros t0 Hin Heq. unfold codes_bound in Hbound.
    rewrite Forall_forall in Hbound. rewrite (Hbound t0 Hin) in Heq.
    apply qrCodeData_injective in Heq. exact (Hfresh t0 Hin Heq). }
  pose proof (insert_transaction_ok tid A (sr_receiverEmail req) G
                (qrCodeData tid) (sr_message req) db Hfresh Hcode Hu Hex) as Hi.
  eexists. eexists. eexists. split.
  - eapply send_ok; try eassumption. congruence.
  - simpl. repeat split.
    rewrite balance_decrement; [reflexivity|].
    change (select_user_gift A G (set_transactions _ db))
      with (select_user_gift A G db).
    unfold select_available_user_gift in Hav. apply find_some in Hav.
    destruct Hav as [Hin Hk]. apply andb_prop in Hk. destruct Hk as [Hk _].
    unfold select_user_gift. intros Hn.
    eapply find_none in Hn; [|exact Hin]. congruence.
Qed.

(** The demo user holds one Koffie, which the catalogue has switched off. *)
Lemma send_ignores_active_flag_witness :
  (forall f,
     send Demo.toDataURL (Some 1) (Demo.send_request 3) "t1"
          (with_active f (Demo.holding [UserGifts.mk 1 3 1]))
     = (with_active f
          (fst (send Demo.toDataURL (Some 1) (Demo.send_request 3) "t1"
                     (Demo.holding [UserGifts.mk 1 3 1]))),
        snd (send Demo.toDataURL (Some 1) (Demo.send_request 3) "t1"
                  (Demo.holding [UserGifts.mk 1 3 1])))) /\
  exists db' body t,
    send Demo.toDataURL (Some 1) (Demo.send_request 3) "t1"
         (Demo.holding [UserGifts.mk 1 3 1]) = (db', Json body) /\
    transactions db' = transactions (Demo.holding [UserGifts.mk 1 3 1]) ++ [t] /\
    Transactions.id t = "t1"%string /\
    Transactions.gift_type_id t = 3 /\
    Transactions.status t = issued /\
    balance 1 3 db' = balance 1 3 (Demo.holding [UserGifts.mk 1 3 1]) - 1.
Proof.
  apply (send_ignores_active_flag Demo.toDataURL
           (Demo.holding [UserGifts.mk 1 3 1]) 1 3 Demo.koffie
           (UserGifts.mk 1 3 1) (Demo.send_request 3) "t1").
  - reflexivity.
  - reflexivity.
  - reflexivity.
  - reflexivity.
  - lia.
  - reflexivity.
  - simpl. discriminate.
  - constructor.
  - simpl. intros t [].
Defined.

(** ** [GET /inventory] and [POST /sync] *)

(** *** Binary collation is a total order *)

Lemma ascii_compare_refl a : Ascii.compare a a = Eq.
Proof. unfold Ascii.compare. apply N.compare_refl. Qed.

Lemma ascii_compare_lt_trans a b c :
  Ascii.compare a b = Lt -> Ascii.compare b c = Lt -> Ascii.compare a c = Lt.
Proof.
  unfold Ascii.compare. rewrite !N.compare_lt_iff. apply N.lt_trans.
Qed.

Lemma string_compare_refl s : String.compare s s = Eq.
Proof.
  induction s as [|a s IH]; simpl; [reflexivity|].
  now rewrite ascii_compare_refl.
Qed.

Lemma string_compare_lt_trans a :
  forall b c,
    String.compare a b = Lt -> String.compare b c = Lt ->
    String.compare a c = Lt.
Proof.
  induction a as [|x a IH]; intros [|y b] [|z c]; simpl; try easy.
  destruct (Ascii.compare x y) eqn:Exy; try discriminate;
    destruct (Ascii.compare y z) eqn:Eyz; try discriminate; intros Hab Hbc.
  - apply Ascii.compare_eq_iff in Exy, Eyz. subst.
    rewrite ascii_compare_refl. eapply IH; eassumption.
  - apply Ascii.compare_eq_iff in Exy. subst. now rewrite Eyz.
  - apply Ascii.compare_eq_iff in Eyz. subst. now rewrite Exy.
  - now rewrite (ascii_compare_lt_trans _ _ _ Exy Eyz).
Qed.

Lemma string_ltb_trans a b c :
  String.ltb a b = true -> String.ltb b c = true -> String.ltb a c = true.
Proof.
  unfold String.ltb. intros Hab Hbc.
  destruct (String.compare a b) eqn:Eab; try discriminate.
  destruct (String.compare b c) eqn:Ebc; try discriminate.
  now rewrite (string_compare_lt_trans _ _ _ Eab Ebc).
Qed.

Lemma string_leb_trans a b c :
  String.leb a b = true -> String.leb b c = true -> String.leb a c = true.
Proof.
  unfold String.leb. intros Hab Hbc.
  destruct (String.compare a b) eqn:Eab; try discriminate;
    destruct (String.compare b c) eqn:Ebc; try discriminate.
  - apply String.compare_eq_iff in Eab, Ebc. subst.
    now rewrite string_compare_refl.
  - apply String.compare_eq_iff in Eab. subst. now rewrite Ebc.
  - apply String.compare_eq_iff in Ebc. subst. now rewrite Eab.
  - now rewrite (string_compare_lt_trans _ _ _ Eab Ebc).
Qed.

Lemma string_trichotomy a b :
  String.ltb a b = true \/ a = b \/ String.ltb b a = true.
Proof.
  unfold String.ltb. rewrite (String.compare_antisym b a).
  destruct (String.compare a b) eqn:E; simpl; auto.
  right. left. now apply String.compare_eq_iff.
Qed.

(** *** Two-key orders *)

Section TwoKeys.
Context {A K : Type} (key : A -> K).
Context (ltb eqb : K -> K -> bool) (leb2 : A -> A -> bool).

Hypothesis eqb_eq : forall x y, eqb x y = true <-> x = y.
Hypothesis ltb_trans :
  forall x y z, ltb x y = true -> ltb y z = true -> ltb x z = true.
Hypothesis ltb_trichotomy :
  forall x y, ltb x y = true \/ x = y \/ ltb y x = true.
Hypothesis leb2_trans :
  forall a b c, leb2 a b = true -> leb2 b c = true -> leb2 a c = true.
Hypothesis leb2_total : forall a b, leb2 a b = true \/ leb2 b a = true.

Let lex : A -> A -> bool := two_keys key ltb eqb leb2.

Lemma two_keys_iff a b :
  lex a b = true <->
  ltb (key a) (key b) = true \/ (key a = key b /\ leb2 a b = true).
Proof.
  unfold lex, two_keys. rewrite orb_true_iff, andb_true_iff, eqb_eq. tauto.
Qed.

Lemma two_keys_trans a b c :
  lex a b = true -> lex b c = true -> lex a c = true.
Proof.
  rewrite !two_keys_iff. intros [Hab|[Eab Lab]] [Hbc|[Ebc Lbc]].
  - left. eapply ltb_trans; eassumption.
  - left. now rewrite <- Ebc.
  - left. now rewrite Eab.
  - right. split; [congruence|]. eapply leb2_trans; eassumption.
Qed.

Lemma two_keys_total a b : lex a b = true \/ lex b a = true.
Proof.
  rewrite !two_keys_iff.
  destruct (ltb_trichotomy (key a) (key b)) as [H|[H|H]]; auto.
  destruct (leb2_total a b); auto.
Qed.
End TwoKeys.

(** *** [ORDER BY] sorts and keeps the rows *)

Section OrderByFacts.
Context {A : Type} (leb : A -> A -> bool).
Hypothesis leb_trans :
  forall a b c, leb a b = true -> leb b c = true -> leb a c = true.
Hypothesis leb_total : forall a b, leb a b = true \/ leb b a = true.

Let le (a b : A) : Prop := leb a b = true.

Lemma insert_row_perm x l : Permutation (insert_row leb x l) (x :: l).
Proof.
  induction l as [|y l IH]; simpl; [reflexivity|].
  destruct (leb x y); [reflexivity|].
  rewrite IH. apply perm_swap.
Qed.

Lemma order_by_perm l : Permutation (order_by leb l) l.
Proof.
  induction l as [|x l IH]; simpl; [reflexivity|].
  rewrite insert_row_perm. now constructor.
Qed.

Lemma insert_row_sorted x l :
  StronglySorted le l -> StronglySorted le (insert_row leb x l).
Proof.
  induction 1 as [|y l Hs IH Hall]; simpl.
  - repeat constructor.
  - destruct (leb x y) eqn:Exy.
    + constructor; [now constructor|]. constructor; [exact Exy|].
      eapply Forall_impl; [|exact Hall]. intros z Hyz.
      eapply leb_trans; eassumption.
    + constructor; [exact IH|].
      eapply Permutation_Forall; [symmetry; apply insert_row_perm|].
      constructor; [|exact Hall].
      destruct (leb_total x y); [congruence | assumption].
Qed.

Lemma order_by_sorted l : StronglySorted le (order_by leb l).
Proof.
  induction l as [|x l IH]; simpl; [constructor|].
  now apply insert_row_sorted.
Qed.
End OrderByFacts.

Lemma StronglySorted_map {A B} (f : A -> B) (R : B -> B -> Prop) l :
  StronglySorted (fun a b => R (f a) (f b)) l -> StronglySorted R (map f l).
Proof.
  induction 1 as [|x l Hs IH Hall]; simpl; constructor; [exact IH|].
  now apply Forall_map.
Qed.

Lemma StronglySorted_impl {A} (R R' : A -> A -> Prop) l :
  (forall a b, R a b -> R' a b) -> StronglySorted R l -> StronglySorted R' l.
Proof.
  intros HR. induction 1 as [|x l Hs IH Hall]; constructor; [exact IH|].
  eapply Forall_impl; [|exact Hall]. intros b. apply HR.
Qed.

Lemma by_category_name_trans a b c :
  by_category_name a b = true -> by_category_name b c = true ->
  by_category_name a c = true.
Proof.
  apply (two_keys_trans (fun r => GiftTypes.category (snd r))
           String.ltb String.eqb
           (fun a b => String.leb (GiftTypes.name (snd a))
                                  (GiftTypes.name (snd b)))).
  - apply String.eqb_eq.
  - apply string_ltb_trans.
  - intros x y z. apply string_leb_trans.
Qed.

Lemma by_category_name_total a b :
  by_category_name a b = true \/ by_category_name b a = true.
Proof.
  apply (two_keys_total (fun r => GiftTypes.category (snd r))
           String.ltb String.eqb
           (fun a b => String.leb (GiftTypes.name (snd a))
                                  (GiftTypes.name (snd b)))).
  - apply String.eqb_eq.
  - apply string_trichotomy.
  - intros x y. apply String.leb_total.
Qed.

Lemma by_quantity_desc_name_trans a b c :
  by_quantity_desc_name a b = true -> by_quantity_desc_name b c = true ->
  by_quantity_desc_name a c = true.
Proof.
  apply (two_keys_trans (fun r => UserGifts.quantity (fst r))
           (fun x y => y <? x) Z.eqb
           (fun a b => String.leb (GiftTypes.name (snd a))
                                  (GiftTypes.name (snd b)))).
  - apply Z.eqb_eq.
  - intros x y z. rewrite !Z.ltb_lt. lia.
  - intros x y z. apply string_leb_trans.
Qed.

Lemma by_quantity_desc_name_total a b :
  by_quantity_desc_name a b = true \/ by_quantity_desc_name b a = true.
Proof.
  apply (two_keys_total (fun r => UserGifts.quantity (fst r))
           (fun x y => y <? x) Z.eqb
           (fun a b => String.leb (GiftTypes.name (snd a))
                                  (GiftTypes.name (snd b)))).
  - apply Z.eqb_eq.
  - intros x y. rewrite !Z.ltb_lt. lia.
  - intros x y. apply String.leb_total.
Qed.

Lemma by_category_name_sound a b :
  by_category_name a b = true ->
  category_then_name (inventory_row a) (inventory_row b).
Proof.
  unfold by_category_name, category_then_name. simpl.
  rewrite orb_true_iff, andb_true_iff, String.eqb_eq. tauto.
Qed.

Lemma by_quantity_desc_name_sound a b :
  by_quantity_desc_name a b = true ->
  quantity_desc_then_name (sync_row a) (sync_row b).
Proof.
  unfold by_quantity_desc_name, quantity_desc_then_name. simpl.
  rewrite orb_true_iff, andb_true_iff, Z.eqb_eq, Z.ltb_lt. tauto.
Qed.

(** The rows both queries select before ordering them. *)
Lemma held_rows_spec uid db r :
  In r (filter (held_by uid) (join_user_gifts db)) <-> held_entry uid db r.
Proof.
  unfold held_entry, held_by, join_user_gifts.
  rewrite filter_In, in_flat_map, andb_true_iff, Z.eqb_eq, Z.ltb_lt. split.
  - intros [(ug & Hug & Hin) [Hu Hq]].
    apply in_map_iff in Hin. destruct Hin as (gt & <- & Hgt).
    apply filter_In in Hgt. destruct Hgt as [Hgt Hid].
    apply Z.eqb_eq in Hid. simpl in *. tauto.
  - intros (Hug & Hgt & Hid & Hu & Hq). split; [|tauto].
    exists (fst r). split; [exact Hug|].
    apply in_map_iff. exists (snd r). split; [now destruct r|].
    apply filter_In. split; [exact Hgt|]. now apply Z.eqb_eq.
Qed.

(** C9, as the code has it: both routes return exactly the entries of the
    account with a strictly positive quantity (joined with the catalogue);
    the inventory view lists them by category then name, the device sync
    lists the same entries by quantity, largest first, then name. *)
Theorem inventory_and_sync_orderings :
  forall uid db,
    inventory (Some uid) db = (db, Json (select_inventory uid db)) /\
    (forall deviceId,
       snd (sync (Some uid) deviceId db) = Json (select_sync_inventory uid db)) /\
    (exists held,
       (forall r, In r held <-> held_entry uid db r) /\
       Permutation (select_inventory uid db) (map inventory_row held) /\
       Permutation (select_sync_inventory uid db) (map sync_row held)) /\
    StronglySorted category_then_name (select_inventory uid db) /\
    StronglySorted quantity_desc_then_name (select_sync_inventory uid db).
Proof.
  intros uid db. split; [reflexivity|]. split.
  { intros [[|c d]|]; reflexivity. }
  split.
  { exists (filter (held_by uid) (join_user_gifts db)).
    split; [apply held_rows_spec|].
    unfold select_inventory, select_sync_inventory.
    split; apply Permutation_map, order_by_perm. }
  unfold select_inventory, select_sync_inventory. split.
  - apply StronglySorted_map.
    eapply StronglySorted_impl; [apply by_category_name_sound|].
    apply order_by_sorted;
      [apply by_category_name_trans | apply by_category_name_total].
  - apply StronglySorted_map.
    eapply StronglySorted_impl; [apply by_quantity_desc_name_sound|].
    apply order_by_sorted;
      [apply by_quantity_desc_name_trans | apply by_quantity_desc_name_total].
Qed.

(** C9 as stated fails: for an account with one Biertje (drinks) and five
    Taartjes (food) the inventory view lists Biertje first while the device
    sync lists Taartje first, which is not category-then-name order. *)
Lemma sync_ordering_differs_from_inventory :
  map Inventory.gift_type_id (select_inventory 1 Demo.mixed) = [1; 6] /\
  map Sync.id (select_sync_inventory 1 Demo.mixed) = [6; 1] /\
  ~ StronglySorted sync_category_then_name (select_sync_inventory 1 Demo.mixed).
Proof.
  split; [reflexivity|]. split; [reflexivity|].
  intros H. inversion H as [|x l _ Hall]; subst.
  inversion Hall as [|y l' Hxy _]; subst.
  destruct Hxy as [Hlt|[Heq _]]; [vm_compute in Hlt|vm_compute in Heq];
    discriminate.
Qed.

(** ** Redemption *)

Lemma find_map_invariant {A} (p : A -> bool) (f : A -> A) l :
  (forall x, p (f x) = p x) ->
  find p (map f l) = option_map f (find p l).
Proof.
  intros Hp. induction l as [|x l IH]; simpl; [reflexivity|].
  rewrite Hp. destruct (p x); [reflexivity | exact IH].
Qed.

Lemma issued_is_not_redeemed : String.eqb redeemed issued = false.
Proof. reflexivity. Qed.

Lemma still_issued_mark tid' now partner t :
  still_issued tid' (mark_redeemed now partner t) = false.
Proof.
  unfold still_issued, mark_redeemed.
  cbn [Transactions.status Transactions.id].
  rewrite issued_is_not_redeemed. apply andb_false_r.
Qed.

(** The conditional write leaves no row for a second one to change. *)
Lemma none_still_issued_after tid now partner db :
  filter (still_issued tid)
         (transactions (fst (redeem_where_issued tid now partner db))) = [].
Proof.
  unfold redeem_where_issued. simpl.
  induction (transactions db) as [|t l IH]; simpl; [reflexivity|].
  destruct (still_issued tid t) eqn:E; simpl.
  - now rewrite still_issued_mark.
  - now rewrite E.
Qed.

(** A conditional write that finds no row changes nothing. *)
Lemma redeem_where_issued_noop tid now partner db :
  filter (still_issued tid) (transactions db) = [] ->
  redeem_where_issued tid now partner db = (db, []).
Proof.
  unfold redeem_where_issued. intros H. rewrite H. simpl. f_equal.
  assert (Hmap : map (fun t => if still_issued tid t
                               then mark_redeemed now partner t else t)
                     (transactions db) = transactions db).
  { induction (transactions db) as [|t l IH]; simpl in *; [reflexivity|].
    destruct (still_issued tid t); [discriminate|]. now rewrite IH. }
  rewrite Hmap. now destruct db.
Qed.

Lemma resolve_after_write code tid now partner db :
  resolve_transaction code (fst (redeem_where_issued tid now partner db))
  = option_map (fun t => if still_issued tid t
                         then mark_redeemed now partner t else t)
               (resolve_transaction code db).
Proof.
  unfold resolve_transaction, redeem_where_issued. simpl.
  apply find_map_invariant. intros t.
  destruct (still_issued tid t); reflexivity.
Qed.

Lemma still_issued_intro t :
  Transactions.status t = issued -> still_issued (Transactions.id t) t = true.
Proof.
  unfold still_issued. intros ->. now rewrite !String.eqb_refl.
Qed.

Lemma filter_nonempty {A} (p : A -> bool) l x :
  In x l -> p x = true -> filter p l <> [].
Proof.
  intros Hin Hp Hnil.
  assert (Hx : In x (filter p l)) by (apply filter_In; now split).
  rewrite Hnil in Hx. exact Hx.
Qed.

(** *** Status changes *)

Lemma transition_ok_refl t : transition_ok t t.
Proof. split; [reflexivity | now left]. Qed.

Lemma transition_ok_trans a b c :
  transition_ok a b -> transition_ok b c -> transition_ok a c.
Proof.
  intros [Hid1 H1] [Hid2 H2]. split; [congruence|].
  destruct H1 as [->|[Ha Hb]]; [exact H2|].
  destruct H2 as [->|[Hb' _]]; [right; now split|].
  exfalso. rewrite Hb in Hb'. discriminate.
Qed.

Lemma Forall2_refl_on {A} (R : A -> A -> Prop) l :
  (forall x, R x x) -> Forall2 R l l.
Proof. intros H. induction l; constructor; auto. Qed.

Lemma evolves_refl db : evolves db db.
Proof.
  exists (transactions db), []. split; [now rewrite app_nil_r|].
  apply Forall2_refl_on, transition_ok_refl.
Qed.

Lemma evolves_same db db' :
  transactions db' = transactions db -> evolves db db'.
Proof.
  intros H. exists (transactions db), []. split; [now rewrite app_nil_r|].
  apply Forall2_refl_on, transition_ok_refl.
Qed.

Lemma evolves_append db db' new :
  transactions db' = transactions db ++ new -> evolves db db'.
Proof.
  intros H. exists (transactions db), new. split; [exact H|].
  apply Forall2_refl_on, transition_ok_refl.
Qed.

Lemma Forall2_trans {A} (R : A -> A -> Prop) :
  (forall a b c, R a b -> R b c -> R a c) ->
  forall l1 l2 l3, Forall2 R l1 l2 -> Forall2 R l2 l3 -> Forall2 R l1 l3.
Proof.
  intros HR l1 l2 l3 H12. revert l3.
  induction H12 as [|a b l1 l2 Hab _ IH]; intros l3 H23.
  - inversion H23. constructor.
  - inversion H23 as [|b' c l2' l3' Hbc H23']; subst.
    constructor; [eapply HR; eassumption | now apply IH].
Qed.

Lemma evolves_trans a b c : evolves a b -> evolves b c -> evolves a c.
Proof.
  intros (old1 & new1 & E1 & F1) (old2 & new2 & E2 & F2).
  rewrite E1 in F2. apply Forall2_app_inv_l in F2.
  destruct F2 as (l1 & l2 & F21 & F22 & ->).
  exists l1, (l2 ++ new2). split; [now rewrite E2, app_assoc|].
  eapply Forall2_trans; [apply transition_ok_trans | exact F1 | exact F21].
Qed.

Lemma redeem_where_issued_evolves tid now partner db :
  evolves db (fst (redeem_where_issued tid now partner db)).
Proof.
  unfold redeem_where_issued. simpl.
  eexists. exists []. split; [simpl; now rewrite app_nil_r|].
  induction (transactions db) as [|t l IH]; simpl; constructor; [|exact IH].
  destruct (still_issued tid t) eqn:E; [|apply transition_ok_refl].
  split; [reflexivity|]. right. split; [|reflexivity].
  unfold still_issued in E. apply andb_prop in E.
  now apply String.eqb_eq.
Qed.

Lemma redeem_evolves code now partner db :
  evolves db (fst (redeem code now partner db)).
Proof.
  unfold redeem.
  destruct (resolve_transaction code db) as [t|]; [|apply evolves_refl].
  pose proof (redeem_where_issued_evolves (Transactions.id t) now partner db)
    as H.
  destruct (redeem_where_issued (Transactions.id t) now partner db)
    as [db' [|t' l]]; exact H.
Qed.

Lemma purchase_transactions user items purchaseId db :
  transactions (fst (purchase user items purchaseId db)) = transactions db.
Proof.
  unfold purchase, route.
  destruct user as [uid|]; [|reflexivity].
  destruct items as [[|it items]|]; try reflexivity.
  unfold bind.
  pose proof (purchase_items_frame uid (it :: items) 0 db) as Hf.
  destruct (purchase_items uid (it :: items) 0 db) as [db1 [total|r]];
    simpl in Hf; [|apply Hf].
  unfold run_checked.
  destruct (insert_purchase purchaseId uid (it :: items) total db1)
    as [db2|] eqn:Hi; simpl; [|apply Hf].
  apply insert_purchase_some in Hi. subst db2. apply Hf.
Qed.

(** A send adds at most one row and touches no earlier one. *)
Lemma send_transactions toDataURL user req tid db :
  exists new,
    transactions (fst (send toDataURL user req tid db))
    = transactions db ++ new.
Proof.
  unfold send, route.
  destruct user as [uid|]; [|exists []; simpl; now rewrite app_nil_r].
  destruct (sr_giftTypeId req) as [[|gid|gid]|];
    try (exists []; simpl; now rewrite app_nil_r);
    unfold bind, query, respond, run_checked, run, ret;
    (destruct (select_available_user_gift uid _ db);
     [|exists []; simpl; now rewrite app_nil_r]);
    (destruct (toDataURL (qrCodeData tid));
     [|exists []; simpl; now rewrite app_nil_r]);
    (destruct (insert_transaction tid uid _ _ _ _ db) as [db1|] eqn:Hi;
     [|exists []; simpl; now rewrite app_nil_r]);
    apply insert_transaction_some in Hi; destruct Hi as (-> & _);
    eexists; destruct (select_gift_type _ db); reflexivity.
Qed.

Lemma sync_transactions user deviceId db :
  transactions (fst (sync user deviceId db)) = transactions db.
Proof. destruct user, deviceId as [[|c d]|]; reflexivity. Qed.

Lemma exec_evolves toDataURL o db : evolves db (exec toDataURL o db).
Proof.
  destruct o as [user items pid|user req tid|user dev|code now partner]; simpl.
  - apply evolves_same, purchase_transactions.
  - destruct (send_transactions toDataURL user req tid db) as [new H].
    eapply evolves_append, H.
  - apply evolves_same, sync_transactions.
  - apply redeem_evolves.
Qed.

Lemma reachable_evolves toDataURL db0 db :
  reachable toDataURL db0 db -> evolves db0 db.
Proof.
  induction 1 as [|db o _ IH]; [apply evolves_refl|].
  eapply evolves_trans; [exact IH | apply exec_evolves].
Qed.

Lemma transition_ok_terminal t t' :
  transition_ok t t' -> Transactions.status t = redeemed -> t' = t.
Proof.
  intros [_ [H|[H _]]] Hr; [exact H|].
  rewrite Hr in H. discriminate.
Qed.

Lemma redeem_unknown code now partner db :
  resolve_transaction code db = None ->
  redeem code now partner db = (db, NotFound).
Proof. unfold redeem. now intros ->. Qed.

Lemma redeem_issued code now partner db t :
  resolve_transaction code db = Some t ->
  Transactions.status t = issued ->
  exists t1,
    redeem code now partner db
    = (fst (redeem_where_issued (Transactions.id t) now partner db),
       Redeemed t1) /\
    Transactions.status t1 = redeemed /\
    Transactions.redeemed_at t1 = Some now /\
    Transactions.partner_id t1 = partner.
Proof.
  intros Hres Hst. unfold redeem. rewrite Hres.
  assert (Hne : filter (still_issued (Transactions.id t)) (transactions db)
                <> []).
  { apply (filter_nonempty _ _ t).
    - unfold resolve_transaction in Hres. now apply find_some in Hres.
    - now apply still_issued_intro. }
  unfold redeem_where_issued.
  destruct (filter (still_issued (Transactions.id t)) (transactions db))
    as [|x l]; [congruence|].
  simpl. eexists. repeat split.
Qed.

Lemma redeem_again code now partner now' partner' db t :
  resolve_transaction code db = Some t ->
  Transactions.status t = issued ->
  let db1 := fst (redeem_where_issued (Transactions.id t) now partner db) in
  resolve_transaction code db1 = Some (mark_redeemed now partner t) /\
  redeem code now' partner' db1 = (db1, AlreadyRedeemed).
Proof.
  intros Hres Hst db1.
  assert (Hres1 : resolve_transaction code db1
                  = Some (mark_redeemed now partner t)).
  { unfold db1. rewrite resolve_after_write, Hres. simpl.
    now rewrite (still_issued_intro _ Hst). }
  split; [exact Hres1|].
  unfold redeem. rewrite Hres1.
  change (Transactions.id (mark_redeemed now partner t))
    with (Transactions.id t).
  rewrite redeem_where_issued_noop; [reflexivity|].
  apply none_still_issued_after.
Qed.

(** C3: on a code that resolves to a transaction of status issued, a first
    redeem succeeds and returns the transaction as redeemed at the time of
    that call, a second redeem reports AlreadyRedeemed and leaves the store
    as the first call left it, so the code still resolves to the transaction
    with the first call's [redeemed_at]; a code that resolves to no
    transaction is answered NotFound and nothing changes; and along every
    run of purchase, send, sync and redeem requests each transaction keeps
    its identity and either stays as it is or goes from issued to redeemed,
    a redeemed transaction never changing again. *)
Theorem redeem_is_one_shot :
  forall toDataURL db code now1 partner1 now2 partner2,
    (forall t,
       resolve_transaction code db = Some t ->
       Transactions.status t = issued ->
       exists db1 t1,
         redeem code now1 partner1 db = (db1, Redeemed t1) /\
         Transactions.status t1 = redeemed /\
         Transactions.redeemed_at t1 = Some now1 /\
         resolve_transaction code db1 = Some (mark_redeemed now1 partner1 t) /\
         redeem code now2 partner2 db1 = (db1, AlreadyRedeemed)) /\
    (resolve_transaction code db = None ->
     redeem code now1 partner1 db = (db, NotFound)) /\
    (forall db',
       reachable toDataURL db db' ->
       exists old new,
         transactions db' = old ++ new /\
         Forall2 (fun t t' =>
                    transition_ok t t' /\
                    (Transactions.status t = redeemed -> t' = t))
                 (transactions db) old).
Proof.
  intros toDataURL db code now1 partner1 now2 partner2.
  split; [|split].
  - intros t Hres Hst.
    destruct (redeem_issued code now1 partner1 db t Hres Hst)
      as (t1 & Hred & Hs & Hat & _).
    destruct (redeem_again code now1 partner1 now2 partner2 db t Hres Hst)
      as [Hres1 Hagain].
    eexists. exists t1. repeat split; eassumption.
  - apply redeem_unknown.
  - intros db' Hreach. apply reachable_evolves in Hreach.
    destruct Hreach as (old & new & E & F). exists old, new.
    split; [exact E|].
    eapply Forall2_impl; [|exact F]. intros a b Hab.
    split; [exact Hab | now apply transition_ok_terminal].
Qed.

(** The example scenario of the specification: the code of the transaction
    just sent is redeemed twice. *)
Lemma redeem_is_one_shot_witness :
  resolve_transaction "CADEAUTJE-t1" Demo.sent = Some Demo.sent_transaction /\
  Transactions.status Demo.sent_transaction = issued /\
  exists db1 t1,
    redeem "CADEAUTJE-t1" "2026-01-01T10:00:00Z" (Some 7) Demo.sent
    = (db1, Redeemed t1) /\
    Transactions.status t1 = redeemed /\
    Transactions.redeemed_at t1 = Some "2026-01-01T10:00:00Z"%string /\
    resolve_transaction "CADEAUTJE-t1" db1
    = Some (mark_redeemed "2026-01-01T10:00:00Z" (Some 7)
                          Demo.sent_transaction) /\
    redeem "CADEAUTJE-t1" "2026-01-02T09:30:00Z" None db1
    = (db1, AlreadyRedeemed).
Proof.
  split; [reflexivity|]. split; [reflexivity|].
  apply (proj1 (redeem_is_one_shot Demo.toDataURL Demo.sent "CADEAUTJE-t1"
                  "2026-01-01T10:00:00Z" (Some 7)
                  "2026-01-02T09:30:00Z" None)
               Demo.sent_transaction);
    reflexivity.
Defined.

(** *** Concurrent callers *)

(** A call that runs its two steps without interruption is [redeem]. *)
Lemma redeem_as_two_steps code now partner db :
  run_schedule [0%nat; 0%nat] [Calling code now partner] db
  = (fst (redeem code now partner db), [Returned (snd (redeem code now partner db))]).
Proof.
  unfold redeem. simpl.
  destruct (resolve_transaction code db) as [t|]; simpl; [|reflexivity].
  unfold redeem_where_issued.
  destruct (filter (still_issued (Transactions.id t)) (transactions db));
    reflexivity.
Qed.

Lemma is_success_returned th : is_success th = true -> is_returned th = true.
Proof. destruct th as [| |[]]; simpl; congruence. Qed.

Section Race.
Variables code tid : string.

Let bound (db : Db) : Prop :=
  exists t, resolve_transaction code db = Some t /\ Transactions.id t = tid.

Let open (db : Db) : Prop :=
  filter (still_issued tid) (transactions db) <> [].

Let closed (db : Db) : Prop :=
  filter (still_issued tid) (transactions db) = [].

(** One storage step of one call. *)
Lemma thread_step_inv th db :
  bound db -> ok_thread code tid th ->
  bound (fst (thread_step th db)) /\
  ok_thread code tid (snd (thread_step th db)) /\
  (open db -> is_returned th = false ->
   (open (fst (thread_step th db)) /\
    is_returned (snd (thread_step th db)) = false) \/
   (closed (fst (thread_step th db)) /\
    is_success (snd (thread_step th db)) = true)) /\
  (closed db ->
   closed (fst (thread_step th db)) /\
   is_success (snd (thread_step th db)) = is_success th).
Proof.
  intros Hb Hok. destruct th as [c now p|x now p|r]; simpl in Hok.
  - subst c. destruct Hb as (t & Hres & Hid). simpl. rewrite Hres. simpl.
    split; [now exists t|]. split; [exact Hid|]. split.
    + intros Ho _. left. now split.
    + intros Hc. now split.
  - subst x. unfold thread_step.
    destruct (filter (still_issued tid) (transactions db)) as [|y l] eqn:Ef.
    + rewrite (redeem_where_issued_noop _ _ _ _ Ef). simpl.
      split; [exact Hb|]. split; [exact I|]. split.
      * intros Ho. exfalso. apply Ho. exact Ef.
      * intros _. now split.
    + pose proof (none_still_issued_after tid now p db) as Hnone.
      pose proof (resolve_after_write code tid now p db) as Hres.
      unfold redeem_where_issued in *. rewrite Ef. simpl in *.
      split.
      { destruct Hb as (t & Ht & Hid). rewrite Ht in Hres. simpl in Hres.
        eexists. split; [exact Hres|].
        destruct (still_issued tid t); exact Hid. }
      split; [exact I|]. split.
      * intros _ _. right. split; [exact Hnone | reflexivity].
      * intros Hc. unfold closed in Hc. congruence.
  - simpl. split; [exact Hb|]. split; [exact Hok|]. split.
    + intros _ Hr. discriminate.
    + intros Hc. now split.
Qed.

(** One scheduling decision. *)
Lemma step_nth_inv ths :
  forall i db,
    bound db -> Forall (ok_thread code tid) ths ->
    bound (fst (step_nth i ths db)) /\
    Forall (ok_thread code tid) (snd (step_nth i ths db)) /\
    List.length (snd (step_nth i ths db)) = List.length ths /\
    (open db -> count is_returned ths = 0%nat ->
     (open (fst (step_nth i ths db)) /\
      count is_returned (snd (step_nth i ths db)) = 0%nat) \/
     (closed (fst (step_nth i ths db)) /\
      count is_success (snd (step_nth i ths db)) = 1%nat)) /\
    (closed db ->
     closed (fst (step_nth i ths db)) /\
     count is_success (snd (step_nth i ths db)) = count is_success ths).
Proof.
  induction ths as [|th rest IH]; intros i db Hb Hok.
  - destruct i; simpl; (split; [exact Hb|]); (split; [constructor|]);
      (split; [reflexivity|]);
      (split; [intros Ho Hz; left; now split | intros Hc; now split]).
  - inversion Hok as [|? ? Hth Hrest]; subst.
    assert (Hsucc0 : forall l, count is_returned l = 0%nat ->
                               count is_success l = 0%nat).
    { intros l. unfold count. induction l as [|a l IHl]; simpl; [easy|].
      destruct (is_returned a) eqn:Ea; simpl; [discriminate|].
      destruct (is_success a) eqn:Es;
        [apply is_success_returned in Es; congruence|exact IHl]. }
    destruct i as [|i]; simpl.
    + destruct (thread_step_inv th db Hb Hth) as (Hb' & Hok' & HA & HB).
      destruct (thread_step th db) as [db' th']. simpl in *.
      split; [exact Hb'|]. split; [now constructor|].
      split; [reflexivity|]. unfold count in *. simpl. split.
      * intros Ho Hz.
        destruct (is_returned th) eqn:Er; simpl in Hz; [discriminate|].
        destruct (HA Ho eq_refl) as [[Ho' Hr']|[Hc' Hs']].
        -- left. split; [exact Ho'|]. now rewrite Hr'.
        -- right. split; [exact Hc'|]. rewrite Hs'. simpl.
           f_equal. now apply Hsucc0.
      * intros Hc. destruct (HB Hc) as [Hc' Hs']. split; [exact Hc'|].
        rewrite Hs'. now destruct (is_success th).
    + destruct (IH i db Hb Hrest) as (Hb' & Hok' & Hlen & HA & HB).
      destruct (step_nth i rest db) as [db' rest']. simpl in *.
      split; [exact Hb'|]. split; [now constructor|].
      split; [now rewrite Hlen|]. unfold count in *. simpl. split.
      * intros Ho Hz.
        destruct (is_returned th) eqn:Er; simpl in Hz; [discriminate|].
        assert (Es : is_success th = false).
        { destruct (is_success th) eqn:Es; [|reflexivity].
          apply is_success_returned in Es. congruence. }
        rewrite Es. destruct (HA Ho Hz) as [[Ho' Hr']|[Hc' Hs']].
        -- left. now split.
        -- right. now split.
      * intros Hc. destruct (HB Hc) as [Hc' Hs']. split; [exact Hc'|].
        destruct (is_success th); simpl; now rewrite Hs'.
Qed.

(** A whole schedule: the store is either still open with no call
    returned, or closed with exactly one success. *)
Lemma run_schedule_inv s :
  forall ths db,
    bound db -> Forall (ok_thread code tid) ths ->
    (open db /\ count is_returned ths = 0%nat) \/
    (closed db /\ count is_success ths = 1%nat) ->
    Forall (ok_thread code tid) (snd (run_schedule s ths db)) /\
    List.length (snd (run_schedule s ths db)) = List.length ths /\
    ((open (fst (run_schedule s ths db)) /\
      count is_returned (snd (run_schedule s ths db)) = 0%nat) \/
     (closed (fst (run_schedule s ths db)) /\
      count is_success (snd (run_schedule s ths db)) = 1%nat)).
Proof.
  induction s as [|i s IH]; intros ths db Hb Hok Hphase; simpl.
  - repeat split; assumption.
  - destruct (step_nth_inv ths i db Hb Hok) as (Hb' & Hok' & Hlen & HA & HB).
    destruct (step_nth i ths db) as [db' ths']. simpl in *.
    assert (Hphase' : (open db' /\ count is_returned ths' = 0%nat) \/
                      (closed db' /\ count is_success ths' = 1%nat)).
    { destruct Hphase as [[Ho Hz]|[Hc Hone]].
      - exact (HA Ho Hz).
      - right. destruct (HB Hc) as [Hc' Hs]. split; [exact Hc'|congruence]. }
    destruct (IH ths' db' Hb' Hok' Hphase') as (H1 & H2 & H3).
    split; [exact H1|]. split; [congruence | exact H3].
Qed.
End Race.

(** Every call returns once it has been scheduled twice. *)
Lemma thread_step_left th db :
  (steps_left (snd (thread_step th db)) <= Nat.pred (steps_left th))%nat.
Proof.
  destruct th as [c now p|x now p|r]; simpl.
  - destruct (resolve_transaction c db); simpl; lia.
  - unfold redeem_where_issued.
    destruct (filter (still_issued x) (transactions db)); simpl; lia.
  - lia.
Qed.

Lemma step_nth_left ths :
  forall i db j,
    (steps_left (nth j (snd (step_nth i ths db)) (Returned NotFound))
     <= steps_left (nth j ths (Returned NotFound))
        - (if Nat.eqb j i then 1 else 0))%nat.
Proof.
  induction ths as [|th rest IH]; intros i db j.
  - destruct i, j; simpl; lia.
  - destruct i as [|i]; simpl.
    + pose proof (thread_step_left th db) as Hl.
      destruct (thread_step th db) as [db' th']. simpl in *.
      destruct j as [|j]; simpl; lia.
    + specialize (IH i db). destruct (step_nth i rest db) as [db' rest'].
      simpl in *. destruct j as [|j]; simpl; [lia | apply IH].
Qed.

Lemma run_schedule_left s :
  forall ths db j,
    (steps_left (nth j (snd (run_schedule s ths db)) (Returned NotFound))
     <= steps_left (nth j ths (Returned NotFound))
        - count_occ Nat.eq_dec s j)%nat.
Proof.
  induction s as [|i s IH]; intros ths db j; simpl; [lia|].
  pose proof (step_nth_left ths i db j) as H1.
  destruct (step_nth i ths db) as [db' ths']. simpl in H1.
  specialize (IH ths' db' j).
  destruct (Nat.eq_dec i j) as [->|Hne].
  - rewrite Nat.eqb_refl in H1. lia.
  - lia.
Qed.

Lemma steps_left_zero th : steps_left th = 0%nat -> is_returned th = true.
Proof. destruct th; simpl; congruence. Qed.

Lemma all_returned_split code tid ths :
  Forall (ok_thread code tid) ths ->
  Forall (fun th => is_returned th = true) ths ->
  count is_returned ths = List.length ths /\
  (count is_success ths + count is_already_redeemed ths)%nat = List.length ths.
Proof.
  unfold count. induction 1 as [|th ths Hth _ IH]; intros Hall; [now split|].
  inversion Hall as [|? ? Hr Hrest]; subst.
  destruct (IH Hrest) as [IH1 IH2].
  destruct th as [| |[t| |]]; simpl in *; try discriminate; try contradiction;
    split; lia.
Qed.

Lemma calls_start code tid (calls : list (string * option Z)) :
  Forall (ok_thread code tid)
         (map (fun c => Calling code (fst c) (snd c)) calls) /\
  count is_returned (map (fun c => Calling code (fst c) (snd c)) calls) = 0%nat /\
  forall j,
    (steps_left (nth j (map (fun c => Calling code (fst c) (snd c)) calls)
                     (Returned NotFound)) <= 2)%nat.
Proof.
  unfold count. induction calls as [|c calls (IH1 & IH2 & IH3)]; simpl.
  - repeat split; [constructor|]. intros [|j]; simpl; lia.
  - repeat split; [now constructor | exact IH2 |].
    intros [|j]; simpl; [lia | apply IH3].
Qed.

(** C1: let a code resolve to a transaction of status issued, and let
    [N >= 1] redeem calls on that code run concurrently, their storage steps
    interleaved by any schedule that lets every call take its two steps.
    Then every call returns, exactly one returns success, and the other
    [N - 1] return AlreadyRedeemed. *)
Theorem concurrent_redeem_has_one_winner :
  forall db code t (calls : list (string * option Z)) (s : list nat),
    resolve_transaction code db = Some t ->
    Transactions.status t = issued ->
    (1 <= List.length calls)%nat ->
    (forall i, (i < List.length calls)%nat ->
               (2 <= count_occ Nat.eq_dec s i)%nat) ->
    let ths := map (fun c => Calling code (fst c) (snd c)) calls in
    let ths' := snd (run_schedule s ths db) in
    List.length ths' = List.length calls /\
    Forall (fun th => is_returned th = true) ths' /\
    count is_success ths' = 1%nat /\
    count is_already_redeemed ths' = (List.length calls - 1)%nat.
Proof.
  intros db code t calls s Hres Hst HN Hfair ths ths'.
  destruct (calls_start code (Transactions.id t) calls) as (Hok & Hz & Hleft).
  fold ths in Hok, Hz.
  assert (Hopen : filter (still_issued (Transactions.id t)) (transactions db)
                  <> []).
  { apply (filter_nonempty _ _ t).
    - unfold resolve_transaction in Hres. now apply find_some in Hres.
    - now apply still_issued_intro. }
  destruct (run_schedule_inv code (Transactions.id t) s ths db)
    as (Hok' & Hlen & Hphase).
  { now exists t. }
  { exact Hok. }
  { left. now split. }
  fold ths' in Hok', Hlen, Hphase.
  assert (Hlen' : List.length ths' = List.length calls).
  { rewrite Hlen. unfold ths. apply length_map. }
  assert (Hall : Forall (fun th => is_returned th = true) ths').
  { apply Forall_nth. intros j d Hj.
    rewrite (nth_indep _ d (Returned NotFound) Hj).
    apply steps_left_zero.
    pose proof (run_schedule_left s ths db j) as Hl. fold ths' in Hl.
    specialize (Hleft j). fold ths in Hleft.
    assert (2 <= count_occ Nat.eq_dec s j)%nat by (apply Hfair; lia).
    lia. }
  destruct (all_returned_split _ _ _ Hok' Hall) as [Hret Hsum].
  split; [exact Hlen'|]. split; [exact Hall|].
  destruct Hphase as [[_ Hzero]|[_ Hone]]; [lia|].
  split; [exact Hone | lia].
Qed.

(** Three merchants scan the code of the transaction just sent; the second
    call resolves first, the third writes first. *)
Lemma concurrent_redeem_has_one_winner_witness :
  let calls := [("10:00:00"%string, Some 7); ("10:00:01"%string, Some 8);
                ("10:00:02"%string, None)] in
  let ths' :=
    snd (run_schedule [1; 2; 0; 2; 1; 0]%nat
           (map (fun c => Calling "CADEAUTJE-t1" (fst c) (snd c)) calls)
           Demo.sent) in
  List.length ths' = 3%nat /\
  Forall (fun th => is_returned th = true) ths' /\
  count is_success ths' = 1%nat /\
  count is_already_redeemed ths' = (3 - 1)%nat.
Proof.
  apply (concurrent_redeem_has_one_winner Demo.sent "CADEAUTJE-t1"
           Demo.sent_transaction
           [("10:00:00"%string, Some 7); ("10:00:01"%string, Some 8);
            ("10:00:02"%string, None)]
           [1; 2; 0; 2; 1; 0]%nat).
  - reflexivity.
  - reflexivity.
  - simpl. lia.
  - intros [|[|[|i]]] Hi; simpl in *; lia.
Defined.

(** ** Unit counts below zero *)

Lemma user_gift_key_iff uid gid r :
  user_gift_key uid gid r = true <-> row_key r = (uid, gid).
Proof.
  unfold user_gift_key, row_key. rewrite andb_true_iff, !Z.eqb_eq.
  split; [intros [-> ->]; reflexivity | intros H; now inversion H].
Qed.

Lemma NoDup_map_injective_on {A B} (f : A -> B) l :
  NoDup (map f l) ->
  forall a b, In a l -> In b l -> f a = f b -> a = b.
Proof.
  induction l as [|x l IH]; simpl; intros Hnd a b Ha Hb Hf; [contradiction|].
  inversion Hnd as [|? ? Hnotin Hnd']; subst.
  destruct Ha as [<-|Ha], Hb as [<-|Hb]; try reflexivity.
  - exfalso. apply Hnotin. rewrite Hf. now apply in_map.
  - exfalso. apply Hnotin. rewrite <- Hf. now apply in_map.
  - now apply IH.
Qed.

Lemma send_effect toDataURL user req tid db :
  fst (send toDataURL user req tid db) = db \/
  exists uid gid,
    select_available_user_gift uid gid db <> None /\
    fst (send toDataURL user req tid db)
    = update_user_gift_decrement uid gid
        (set_transactions
           (transactions db ++
            [Transactions.mk tid uid (sr_receiverEmail req) gid issued
                             (qrCodeData tid) (sr_message req) None None])
           db).
Proof.
  unfold send, route.
  destruct user as [uid|]; [|now left].
  destruct (sr_giftTypeId req) as [[|gid|gid]|]; try (now left);
    unfold bind, query, respond, run_checked, run, ret;
    (destruct (select_available_user_gift uid _ db) eqn:Hav; [|now left]);
    (destruct (toDataURL (qrCodeData tid)); [|now left]);
    (destruct (insert_transaction tid uid _ _ _ _ db) as [db1|] eqn:Hi;
     [|now left]);
    apply insert_transaction_some in Hi; destruct Hi as (-> & _);
    right; eexists; eexists;
    (split; [rewrite Hav; discriminate|]);
    destruct (select_gift_type _ db); reflexivity.
Qed.

(** A send against an empty balance is refused and changes nothing. *)
Lemma send_refused_without_units toDataURL uid gid req tid db :
  unique_keys db ->
  sr_giftTypeId req = Some gid -> gid <> 0 ->
  balance uid gid db <= 0 ->
  send toDataURL (Some uid) req tid db
  = (db, Error 400 "You do not have this gift available").
Proof.
  intros Hu Hreq Hnz Hb.
  assert (Hnone : select_available_user_gift uid gid db = None).
  { unfold select_available_user_gift.
    destruct (find _ (user_gifts db)) as [r|] eqn:Hf; [|reflexivity].
    exfalso. apply find_some in Hf. destruct Hf as [Hin Hp].
    apply andb_prop in Hp. destruct Hp as [Hk Hq]. apply Z.ltb_lt in Hq.
    unfold balance, select_user_gift in Hb.
    destruct (find (user_gift_key uid gid) (user_gifts db)) as [r'|] eqn:Hf'.
    - apply find_some in Hf'. destruct Hf' as [Hin' Hk'].
      assert (r = r').
      { eapply (NoDup_map_injective_on row_key); try eassumption.
        apply user_gift_key_iff in Hk, Hk'. congruence. }
      subst. lia.
    - eapply find_none in Hf'; [|exact Hin]. congruence. }
  unfold send, route. rewrite Hreq.
  destruct gid; [congruence| |];
    unfold bind, query, respond; now rewrite Hnone.
Qed.

(** C6: the request [[{ giftTypeId: 1, quantity: -2 }]], sent to a store in
    which nothing has been bought yet, is accepted and leaves the buyer with
    a unit count of -2: a state reachable by one purchase in which an
    inventory entry is below zero. *)
Theorem negative_unit_count_is_reachable :
  fresh Demo.db0 /\
  reachable Demo.toDataURL Demo.db0
    (exec Demo.toDataURL (Purchase (Some 1) (Some [mkItem 1 (-2)]) "p1")
          Demo.db0) /\
  user_gifts
    (exec Demo.toDataURL (Purchase (Some 1) (Some [mkItem 1 (-2)]) "p1")
          Demo.db0)
  = [UserGifts.mk 1 1 (-2)] /\
  ~ nonnegative
      (exec Demo.toDataURL (Purchase (Some 1) (Some [mkItem 1 (-2)]) "p1")
            Demo.db0).
Proof.
  split; [repeat split|]. split; [apply reach_step, reach_init|].
  split; [reflexivity|].
  intros H. inversion H as [|r l Hr _]; subst. simpl in Hr. lia.
Qed.

(** ** Every stored code comes from [send] *)

Lemma exec_codes_bound toDataURL o db :
  codes_bound db -> codes_bound (exec toDataURL o db).
Proof.
  unfold codes_bound.
  destruct o as [user items pid|user req tid|user dev|code now partner];
    simpl; intros Hb.
  - now rewrite purchase_transactions.
  - destruct (send_effect toDataURL user req tid db)
      as [->|(uid & gid & _ & ->)]; [exact Hb|].
    simpl. apply Forall_app. split; [exact Hb|]. now repeat constructor.
  - now rewrite sync_transactions.
  - unfold redeem. destruct (resolve_transaction code db) as [t|]; [|exact Hb].
    unfold redeem_where_issued.
    assert (Hmap : Forall
              (fun t0 => Transactions.qr_code t0
                         = qrCodeData (Transactions.id t0))
              (map (fun t0 => if still_issued (Transactions.id t) t0
                              then mark_redeemed now partner t0 else t0)
                   (transactions db))).
    { apply Forall_map. eapply Forall_impl; [|exact Hb].
      intros t0 H0. simpl in H0.
      destruct (still_issued (Transactions.id t) t0); exact H0. }
    destruct (map _ (filter _ (transactions db))); exact Hmap.
Qed.

(** The assumption of C4 and C10 on the store holds in every store a run
    of requests leads to. *)
Lemma reachable_codes_bound toDataURL db0 db :
  transactions db0 = [] -> reachable toDataURL db0 db -> codes_bound db.
Proof.
  intros Htx Hreach. induction Hreach as [|db o _ IH].
  - unfold codes_bound. rewrite Htx. constructor.
  - now apply exec_codes_bound.
Qed.

(** * Further properties of the routes *)

(** ** Crediting one inventory row *)

Lemma find_app_split {A} (p : A -> bool) l l' :
  find p (l ++ l') = match find p l with Some x => Some x | None => find p l' end.
Proof.
  induction l as [|x l IH]; simpl; [reflexivity|].
  destruct (p x); [reflexivity | exact IH].
Qed.

Lemma user_gift_key_other uid gid uid' gid' r :
  (uid', gid') <> (uid, gid) ->
  user_gift_key uid' gid' r = true -> user_gift_key uid gid r = false.
Proof.
  intros Hne Hk. destruct (user_gift_key uid gid r) eqn:E; [|reflexivity].
  apply user_gift_key_iff in Hk, E. congruence.
Qed.

Lemma balance_update_other q uid gid uid' gid' db :
  (uid', gid') <> (uid, gid) ->
  balance uid' gid' (update_user_gift_add q uid gid db) = balance uid' gid' db.
Proof.
  intros Hne. unfold balance, select_user_gift, update_user_gift_add. simpl.
  rewrite find_add_quantity.
  destruct (find (user_gift_key uid' gid') (user_gifts db)) as [r|] eqn:Hf;
    [|reflexivity].
  apply find_some in Hf. destruct Hf as [_ Hk]. simpl. unfold add_quantity.
  now rewrite (user_gift_key_other _ _ _ _ _ Hne Hk).
Qed.

Lemma balance_insert_other q uid gid uid' gid' db db' :
  (uid', gid') <> (uid, gid) ->
  insert_user_gift uid gid q db = Some db' ->
  balance uid' gid' db' = balance uid' gid' db.
Proof.
  intros Hne. unfold balance, select_user_gift, insert_user_gift.
  destruct (user_exists uid db && gift_type_exists gid db); [|discriminate].
  intros H. injection H as <-. simpl. rewrite find_app_split.
  destruct (find (user_gift_key uid' gid') (user_gifts db)); [reflexivity|].
  simpl. destruct (user_gift_key uid' gid' (UserGifts.mk uid gid q)) eqn:E;
    [|reflexivity].
  apply user_gift_key_iff in E. unfold row_key in E. simpl in E. congruence.
Qed.

(** ** [POST /purchase]: the whole item list *)

Lemma order_total_frame db db1 items :
  same_but_inventory db db1 -> order_total db1 items = order_total db items.
Proof.
  intros Hf. unfold order_total.
  induction items as [|it items IH]; simpl; [reflexivity|].
  now rewrite (select_active_frame _ _ _ Hf), IH.
Qed.

Lemma resolves_frame db db1 it :
  same_but_inventory db db1 -> resolves db1 it -> resolves db it.
Proof.
  unfold resolves. intros Hf. now rewrite (select_active_frame _ _ _ Hf).
Qed.

(** What a loop that ran to the end has done. *)
Lemma purchase_items_success uid items :
  forall total db db' total',
    purchase_items uid items total db = (db', inl total') ->
    total' = total + order_total db items /\
    Forall (resolves db) items /\
    (forall gid, balance uid gid db'
                 = balance uid gid db + ordered_quantity gid items).
Proof.
  induction items as [|it items IH]; intros total db db' total' H.
  - simpl in H. injection H as <- <-. simpl.
    split; [lia|]. split; [constructor|]. intros gid. lia.
  - simpl in H. unfold bind at 1, query at 1 in H.
    destruct (select_active_gift_type (giftTypeId it) db) as [g|] eqn:Hg;
      [|discriminate].
    unfold bind at 1 2, query at 1 in H.
    assert (Hstep : forall db1,
      same_but_inventory db db1 ->
      (forall gid, balance uid gid db1
                   = balance uid gid db
                     + (if giftTypeId it =? gid then quantity it else 0)) ->
      purchase_items uid items (total + GiftTypes.price g * quantity it) db1
      = (db', inl total') ->
      total' = total + order_total db (it :: items) /\
      Forall (resolves db) (it :: items) /\
      (forall gid, balance uid gid db'
                   = balance uid gid db + ordered_quantity gid (it :: items))).
    { intros db1 Hf Hb Hrun. apply IH in Hrun.
      destruct Hrun as (Ht & Hres & Hbal).
      rewrite (order_total_frame _ _ _ Hf) in Ht. simpl. rewrite Hg.
      split; [lia|]. split.
      - constructor; [unfold resolves; congruence|].
        eapply Forall_impl; [|exact Hres]. intros a. now apply resolves_frame.
      - intros gid. rewrite Hbal, Hb.
        destruct (giftTypeId it =? gid); lia. }
    destruct (select_user_gift uid (giftTypeId it) db) as [r|] eqn:Hs.
    + apply (Hstep (update_user_gift_add (quantity it) uid (giftTypeId it) db));
        [apply same_but_inventory_set | | exact H].
      intros gid. destruct (Z.eqb_spec (giftTypeId it) gid) as [<-|Hne].
      * eapply balance_update_same; eassumption.
      * rewrite balance_update_other; [lia | congruence].
    + unfold run_checked at 1 in H.
      destruct (insert_user_gift uid (giftTypeId it) (quantity it) db)
        as [db1|] eqn:Hi; [|discriminate].
      apply (Hstep db1);
        [eapply insert_user_gift_frame; eassumption | | exact H].
      intros gid. destruct (Z.eqb_spec (giftTypeId it) gid) as [<-|Hne].
      * eapply balance_insert_same; eassumption.
      * assert (Hk : (uid, gid) <> (uid, giftTypeId it)) by congruence.
        rewrite (balance_insert_other _ _ _ _ _ _ _ Hk Hi). lia.
Qed.

Lemma purchase_items_other uid items uid' gid :
  uid' <> uid ->
  forall total db,
    balance uid' gid (fst (purchase_items uid items total db))
    = balance uid' gid db.
Proof.
  intros Hne. induction items as [|it items IH]; intros total db; simpl;
    [reflexivity|].
  unfold bind at 1, query at 1.
  destruct (select_active_gift_type (giftTypeId it) db) as [g|];
    [|reflexivity].
  unfold bind at 1 2, query at 1.
  assert (Hk : (uid', gid) <> (uid, giftTypeId it)) by congruence.
  destruct (select_user_gift uid (giftTypeId it) db) as [r|].
  - unfold run at 1. rewrite IH. now apply balance_update_other.
  - unfold run_checked at 1.
    destruct (insert_user_gift uid (giftTypeId it) (quantity it) db)
      as [db1|] eqn:Hi; [|reflexivity].
    rewrite IH. eapply balance_insert_other; eassumption.
Qed.

(** X3: whatever a purchase request holds and however it ends, it changes
    no balance of any other account, and it leaves the accounts, the
    catalogue and the transactions as they were. *)
Theorem purchase_leaves_other_accounts_alone :
  forall user items purchaseId db uid' gid,
    user <> Some uid' ->
    balance uid' gid (fst (purchase user items purchaseId db))
    = balance uid' gid db /\
    users (fst (purchase user items purchaseId db)) = users db /\
    gift_types (fst (purchase user items purchaseId db)) = gift_types db /\
    transactions (fst (purchase user items purchaseId db)) = transactions db.
Proof.
  intros user items pid db uid' gid Hne.
  unfold purchase, route.
  destruct user as [uid|]; [|now repeat split].
  destruct items as [[|it items]|]; try (now repeat split).
  unfold bind.
  assert (Hu : uid' <> uid) by congruence.
  pose proof (purchase_items_other uid (it :: items) uid' gid Hu 0 db) as Hb.
  pose proof (purchase_items_frame uid (it :: items) 0 db) as Hf.
  destruct (purchase_items uid (it :: items) 0 db) as [db1 [total|r]];
    simpl in Hb, Hf; destruct Hf as (H1 & H2 & H3 & _).
  - unfold run_checked.
    destruct (insert_purchase pid uid (it :: items) total db1) as [db2|] eqn:Hi;
      simpl; [|now repeat split].
    apply insert_purchase_some in Hi. subst db2. simpl.
    rewrite balance_set_purchases. now repeat split.
  - simpl. now repeat split.
Qed.

Lemma purchase_leaves_other_accounts_alone_witness :
  Some 1 <> Some 2 /\
  balance 2 1
    (fst (purchase (Some 1) (Some [mkItem 1 3; mkItem 999 1]) "p1" Tour.db0))
  = balance 2 1 Tour.db0 /\
  users (fst (purchase (Some 1) (Some [mkItem 1 3; mkItem 999 1]) "p1"
                       Tour.db0))
  = users Tour.db0 /\
  gift_types (fst (purchase (Some 1) (Some [mkItem 1 3; mkItem 999 1]) "p1"
                            Tour.db0))
  = gift_types Tour.db0 /\
  transactions (fst (purchase (Some 1) (Some [mkItem 1 3; mkItem 999 1]) "p1"
                              Tour.db0))
  = transactions Tour.db0.
Proof.
  assert (H : Some 1 <> Some 2) by discriminate.
  split; [exact H|].
  exact (purchase_leaves_other_accounts_alone (Some 1)
           (Some [mkItem 1 3; mkItem 999 1]) "p1" Tour.db0 2 1 H).
Defined.

Lemma purchase_items_stops uid bad rest pre :
  forall total db,
    user_exists uid db = true ->
    Forall (resolves db) pre -> ~ resolves db bad ->
    exists db1,
      purchase_items uid (pre ++ bad :: rest) total db
      = (db1, inr (Error 400 ("Invalid gift type: " ++ show (giftTypeId bad))))
      /\ same_but_inventory db db1
      /\ forall gid, balance uid gid db1
                     = balance uid gid db + ordered_quantity gid pre.
Proof.
  induction pre as [|it pre IH]; intros total db Hu Hpre Hbad; simpl.
  - exists db. unfold bind, query, respond.
    destruct (select_active_gift_type (giftTypeId bad) db) eqn:Hb;
      [exfalso; apply Hbad; unfold resolves; congruence|].
    split; [reflexivity|]. split; [apply same_but_inventory_refl|].
    intros gid. lia.
  - inversion Hpre as [|? ? Hit Hpre']; subst.
    unfold bind at 1, query at 1.
    destruct (select_active_gift_type (giftTypeId it) db) as [g|] eqn:Hg;
      [|exfalso; apply Hit; exact Hg].
    unfold bind at 1 2, query at 1.
    assert (Hstep : forall db1,
      same_but_inventory db db1 ->
      (forall gid, balance uid gid db1
                   = balance uid gid db
                     + (if giftTypeId it =? gid then quantity it else 0)) ->
      exists db2,
        purchase_items uid (pre ++ bad :: rest)
          (total + GiftTypes.price g * quantity it) db1
        = (db2, inr (Error 400
                       ("Invalid gift type: " ++ show (giftTypeId bad))))
        /\ same_but_inventory db db2
        /\ forall gid, balance uid gid db2
                       = balance uid gid db
                         + ordered_quantity gid (it :: pre)).
    { intros db1 Hf Hb.
      destruct (IH (total + GiftTypes.price g * quantity it) db1)
        as (db2 & Hrun & Hf2 & Hbal).
      - now rewrite (user_exists_frame _ _ _ Hf).
      - eapply Forall_impl; [|exact Hpre']. intros a. unfold resolves.
        now rewrite (select_active_frame _ _ _ Hf).
      - unfold resolves in *. now rewrite (select_active_frame _ _ _ Hf).
      - exists db2. split; [exact Hrun|].
        split; [eapply same_but_inventory_trans; eassumption|].
        intros gid. rewrite Hbal, Hb. simpl.
        destruct (giftTypeId it =? gid); lia. }
    destruct (select_user_gift uid (giftTypeId it) db) as [r|] eqn:Hs.
    + apply (Hstep (update_user_gift_add (quantity it) uid (giftTypeId it) db));
        [apply same_but_inventory_set|].
      intros gid. destruct (Z.eqb_spec (giftTypeId it) gid) as [<-|Hne].
      * eapply balance_update_same; eassumption.
      * rewrite balance_update_other; [lia | congruence].
    + unfold run_checked at 1.
      destruct (insert_user_gift uid (giftTypeId it) (quantity it) db)
        as [db1|] eqn:Hi.
      * apply (Hstep db1); [eapply insert_user_gift_frame; eassumption|].
        intros gid. destruct (Z.eqb_spec (giftTypeId it) gid) as [<-|Hne].
        -- eapply balance_insert_same; eassumption.
        -- assert (Hk : (uid, gid) <> (uid, giftTypeId it)) by congruence.
           rewrite (balance_insert_other _ _ _ _ _ _ _ Hk Hi). lia.
      * exfalso. unfold insert_user_gift in Hi.
        rewrite Hu, (select_active_exists _ _ _ Hg) in Hi. discriminate.
Qed.

(** ** [POST /send]: all outcomes *)

(** X5: a send either replies success or leaves the whole store exactly as
    it was: no reply other than success goes with a debit or with a new
    transaction. *)
Theorem send_is_all_or_nothing :
  forall toDataURL user req transactionId db,
    (exists body, snd (send toDataURL user req transactionId db) = Json body) \/
    fst (send toDataURL user req transactionId db) = db.
Proof.
  intros toDataURL user req tid db. unfold send, route.
  destruct user as [uid|]; [|now right].
  destruct (sr_giftTypeId req) as [[|gid|gid]|]; try (now right);
    unfold bind, query, respond, run_checked, run, ret;
    (destruct (select_available_user_gift uid _ db); [|now right]);
    (destruct (toDataURL (qrCodeData tid)); [|now right]);
    (destruct (insert_transaction tid uid _ _ _ _ db) as [db1|] eqn:Hi;
     [|now right]);
    apply insert_transaction_some in Hi;
    destruct Hi as (_ & _ & _ & _ & Hg);
    apply gift_type_exists_select in Hg;
    (destruct (select_gift_type _ db); [|congruence]);
    left; eexists; reflexivity.
Qed.

Lemma sent_units_append uid gid l t db :
  sent_units uid gid (set_transactions (l ++ [t]) db)
  = Z.of_nat (List.length
                (filter (fun t0 => (Transactions.sender_id t0 =? uid)
                                   && (Transactions.gift_type_id t0 =? gid)) l))
    + (if (Transactions.sender_id t =? uid)
          && (Transactions.gift_type_id t =? gid) then 1 else 0).
Proof.
  unfold sent_units. simpl. rewrite filter_app, length_app. simpl.
  destruct ((Transactions.sender_id t =? uid)
            && (Transactions.gift_type_id t =? gid)); simpl; lia.
Qed.

Lemma available_has_row uid gid db :
  select_available_user_gift uid gid db <> None ->
  select_user_gift uid gid db <> None.
Proof.
  unfold select_available_user_gift, select_user_gift. intros H Hn.
  destruct (find _ (user_gifts db)) as [r|] eqn:Hf; [|congruence].
  apply find_some in Hf. destruct Hf as [Hin Hk].
  apply andb_prop in Hk. destruct Hk as [Hk _].
  eapply find_none in Hn; [|exact Hin]. congruence.
Qed.

(** With exact integers a send moves units and neither makes nor loses
    them. *)
Lemma send_conserves_units_exact :
  forall toDataURL user req transactionId db uid gid,
    balance uid gid (fst (send toDataURL user req transactionId db))
    + sent_units uid gid (fst (send toDataURL user req transactionId db))
    = balance uid gid db + sent_units uid gid db.
Proof.
  intros toDataURL user req tid db uid gid.
  destruct (send_effect toDataURL user req tid db)
    as [->|(u & g & Hav & ->)]; [reflexivity|].
  apply available_has_row in Hav.
  change (sent_units uid gid (update_user_gift_decrement u g ?d))
    with (sent_units uid gid d).
  rewrite sent_units_append. simpl.
  fold (sent_units uid gid db).
  destruct (Z.eqb_spec u uid) as [->|Hu]; simpl.
  - destruct (Z.eqb_spec g gid) as [->|Hg].
    + rewrite balance_decrement; [|exact Hav].
      rewrite balance_set_transactions. lia.
    + change (update_user_gift_decrement uid g ?d)
        with (update_user_gift_add (-1) uid g d).
      rewrite balance_update_other; [|congruence].
      rewrite balance_set_transactions. lia.
  - change (update_user_gift_decrement u g ?d)
      with (update_user_gift_add (-1) u g d).
    rewrite balance_update_other; [|congruence].
    rewrite balance_set_transactions. lia.
Qed.

(** ** Runs of requests: keys of the transactions *)

Lemma send_effect_fresh toDataURL user req tid db :
  fst (send toDataURL user req tid db) = db \/
  exists uid gid,
    (forall t, In t (transactions db) -> Transactions.id t <> tid) /\
    fst (send toDataURL user req tid db)
    = update_user_gift_decrement uid gid
        (set_transactions
           (transactions db ++
            [Transactions.mk tid uid (sr_receiverEmail req) gid issued
                             (qrCodeData tid) (sr_message req) None None])
           db).
Proof.
  unfold send, route.
  destruct user as [uid|]; [|now left].
  destruct (sr_giftTypeId req) as [[|gid|gid]|]; try (now left);
    unfold bind, query, respond, run_checked, run, ret;
    (destruct (select_available_user_gift uid _ db); [|now left]);
    (destruct (toDataURL (qrCodeData tid)); [|now left]);
    (destruct (insert_transaction tid uid _ _ _ _ db) as [db1|] eqn:Hi;
     [|now left]);
    apply insert_transaction_some in Hi; destruct Hi as (-> & Hfresh & _);
    right; eexists; eexists; (split; [exact Hfresh|]);
    destruct (select_gift_type _ db); reflexivity.
Qed.

Lemma exec_transaction_keys toDataURL o db :
  transaction_keys_unique db ->
  transaction_keys_unique (exec toDataURL o db).
Proof.
  unfold transaction_keys_unique.
  destruct o as [user items pid|user req tid|user dev|code now partner];
    simpl; intros Hu.
  - now rewrite purchase_transactions.
  - destruct (send_effect_fresh toDataURL user req tid db)
      as [->|(uid & gid & Hfresh & ->)]; [exact Hu|].
    simpl. rewrite map_app. simpl.
    apply NoDup_app; [exact Hu | repeat constructor; intros [] |].
    intros k Hin [<-|[]]. apply in_map_iff in Hin.
    destruct Hin as (t & Hk & Hin). exact (Hfresh t Hin Hk).
  - now rewrite sync_transactions.
  - unfold redeem. destruct (resolve_transaction code db) as [t|]; [|exact Hu].
    unfold redeem_where_issued.
    assert (Hmap : map Transactions.id
              (map (fun t0 => if still_issued (Transactions.id t) t0
                              then mark_redeemed now partner t0 else t0)
                   (transactions db))
            = map Transactions.id (transactions db)).
    { rewrite map_map. apply map_ext. intros t0.
      now destruct (still_issued (Transactions.id t) t0). }
    destruct (map _ (filter _ (transactions db))); simpl; now rewrite Hmap.
Qed.

Lemma NoDup_map_injective {A B} (f : A -> B) l :
  (forall a b, f a = f b -> a = b) -> NoDup l -> NoDup (map f l).
Proof.
  intros Hinj. induction 1 as [|x l Hnotin _ IH]; simpl; constructor;
    [|exact IH].
  intros Hin. apply in_map_iff in Hin. destruct Hin as (y & Hy & Hin).
  apply Hinj in Hy. now subst.
Qed.

(** X9: in every store a run of requests leads to from a store without
    transactions, the transaction identities are pairwise distinct, every
    redemption code is [CADEAUTJE-] followed by the identity of its
    transaction, and so the redemption codes are pairwise distinct too. *)
Theorem transactions_keep_distinct_keys :
  forall toDataURL db0 db,
    transactions db0 = [] ->
    reachable toDataURL db0 db ->
    transaction_keys_unique db /\
    codes_bound db /\
    NoDup (map Transactions.qr_code (transactions db)).
Proof.
  intros toDataURL db0 db Hf Hr.
  assert (Hk : transaction_keys_unique db).
  { pose proof Hf as Htx. induction Hr as [|db o _ IH].
    - unfold transaction_keys_unique. rewrite Htx. constructor.
    - now apply exec_transaction_keys. }
  pose proof (reachable_codes_bound toDataURL db0 db Hf Hr) as Hb.
  split; [exact Hk|]. split; [exact Hb|].
  assert (Hmap : map Transactions.qr_code (transactions db)
                 = map qrCodeData (map Transactions.id (transactions db))).
  { rewrite map_map. apply map_ext_in. intros t Hin.
    unfold codes_bound in Hb. rewrite Forall_forall in Hb. now apply Hb. }
  rewrite Hmap. apply NoDup_map_injective; [apply qrCodeData_injective|].
  exact Hk.
Qed.

Lemma transactions_keep_distinct_keys_witness :
  transactions Demo.db0 = [] /\
  reachable Demo.toDataURL Demo.db0
    (exec Demo.toDataURL (Send (Some 1) (Demo.send_request 1) "t1")
       (exec Demo.toDataURL (Purchase (Some 1) (Some [mkItem 1 2]) "p1")
             Demo.db0)) /\
  transaction_keys_unique
    (exec Demo.toDataURL (Send (Some 1) (Demo.send_request 1) "t1")
       (exec Demo.toDataURL (Purchase (Some 1) (Some [mkItem 1 2]) "p1")
             Demo.db0)) /\
  codes_bound
    (exec Demo.toDataURL (Send (Some 1) (Demo.send_request 1) "t1")
       (exec Demo.toDataURL (Purchase (Some 1) (Some [mkItem 1 2]) "p1")
             Demo.db0)) /\
  NoDup (map Transactions.qr_code
           (transactions
              (exec Demo.toDataURL (Send (Some 1) (Demo.send_request 1) "t1")
                 (exec Demo.toDataURL
                    (Purchase (Some 1) (Some [mkItem 1 2]) "p1") Demo.db0)))).
Proof.
  assert (Hf : transactions Demo.db0 = []) by reflexivity.
  assert (Hr : reachable Demo.toDataURL Demo.db0
    (exec Demo.toDataURL (Send (Some 1) (Demo.send_request 1) "t1")
       (exec Demo.toDataURL (Purchase (Some 1) (Some [mkItem 1 2]) "p1")
             Demo.db0))).
  { apply reach_step, reach_step, reach_init. }
  split; [exact Hf|]. split; [exact Hr|].
  exact (transactions_keep_distinct_keys _ _ _ Hf Hr).
Defined.

(** ** [GET /claim/:transactionId] *)

Lemma join_transactions_In db t gt u :
  In (t, gt, u) (join_transactions db) <->
  In t (transactions db) /\
  In gt (gift_types db) /\ Transactions.gift_type_id t = GiftTypes.id gt /\
  In u (users db) /\ Transactions.sender_id t = Users.id u.
Proof.
  unfold join_transactions. rewrite in_flat_map. split.
  - intros (t' & Ht & Hin). apply in_flat_map in Hin.
    destruct Hin as (gt' & Hgt & Hin). apply in_map_iff in Hin.
    destruct Hin as (u' & Heq & Hu). injection Heq as -> -> ->.
    apply filter_In in Hgt, Hu. rewrite Z.eqb_eq in Hgt, Hu. tauto.
  - intros (Ht & Hgt & Hg & Hu & Hs). exists t. split; [exact Ht|].
    apply in_flat_map. exists gt. split.
    + apply filter_In. now rewrite Z.eqb_eq.
    + apply in_map_iff. exists u. split; [reflexivity|].
      apply filter_In. now rewrite Z.eqb_eq.
Qed.

(** X10: for a transaction identity that no transaction of the store has,
    the claim route replies 404 "Gift not found" and changes nothing. *)
Theorem claim_of_unknown_gift_is_not_found :
  forall toDataURL transactionId db,
    (forall t, In t (transactions db) -> Transactions.id t <> transactionId) ->
    claim toDataURL transactionId db = (db, Error 404 "Gift not found").
Proof.
  intros toDataURL tid db Hfresh. unfold claim, route, bind, query.
  assert (Hn : select_claim tid db = None).
  { unfold select_claim.
    destruct (find _ (join_transactions db)) as [[[t gt] u]|] eqn:Hf;
      [|reflexivity].
    apply find_some in Hf. destruct Hf as [Hin Hp]. simpl in Hp.
    apply join_transactions_In in Hin. apply String.eqb_eq in Hp.
    exfalso. exact (Hfresh t (proj1 Hin) Hp). }
  now rewrite Hn.
Qed.

Lemma claim_of_unknown_gift_is_not_found_witness :
  (forall t, In t (transactions Demo.sent) ->
             Transactions.id t <> "t2"%string) /\
  claim Demo.toDataURL "t2" Demo.sent
  = (Demo.sent, Error 404 "Gift not found").
Proof.
  assert (H : forall t, In t (transactions Demo.sent) ->
                        Transactions.id t <> "t2"%string).
  { simpl. intros t [<-|[]]. discriminate. }
  split; [exact H|].
  exact (claim_of_unknown_gift_is_not_found Demo.toDataURL "t2" Demo.sent H).
Defined.

(** The joined row the claim route finds for a transaction whose identity
    is a key. *)
Lemma select_claim_unique db t :
  transaction_keys_unique db ->
  In t (transactions db) ->
  gift_type_exists (Transactions.gift_type_id t) db = true ->
  user_exists (Transactions.sender_id t) db = true ->
  exists gt u,
    select_claim (Transactions.id t) db = Some (t, gt, u) /\
    In gt (gift_types db) /\ GiftTypes.id gt = Transactions.gift_type_id t /\
    In u (users db) /\ Users.id u = Transactions.sender_id t.
Proof.
  intros Hk Ht Hg Hu.
  apply existsb_exists in Hg. destruct Hg as (g0 & Hg0 & Eg0).
  apply existsb_exists in Hu. destruct Hu as (u0 & Hu0 & Eu0).
  apply Z.eqb_eq in Eg0, Eu0.
  unfold select_claim.
  destruct (find _ (join_transactions db)) as [[[t' gt] u]|] eqn:Hf.
  - apply find_some in Hf. destruct Hf as [Hin Hp]. simpl in Hp.
    apply String.eqb_eq in Hp. apply join_transactions_In in Hin.
    destruct Hin as (Ht' & Hgt & Egt & Hu' & Eu').
    assert (t' = t).
    { eapply (NoDup_map_injective_on Transactions.id); eassumption. }
    subst t'. exists gt, u. repeat split; auto.
  - exfalso.
    assert (Hin : In (t, g0, u0) (join_transactions db))
      by (apply join_transactions_In; repeat split; auto).
    pose proof (find_none _ _ Hf _ Hin) as Hp. simpl in Hp.
    rewrite String.eqb_refl in Hp. discriminate.
Qed.

(** X11: in a store whose transaction identities are distinct, the claim of
    a transaction of status ['redeemed'] (its gift type and its sender being
    in the store) is answered 410 "Gift already redeemed" and changes
    nothing. *)
Theorem claim_of_redeemed_gift_is_gone :
  forall toDataURL db t,
    transaction_keys_unique db ->
    In t (transactions db) ->
    gift_type_exists (Transactions.gift_type_id t) db = true ->
    user_exists (Transactions.sender_id t) db = true ->
    Transactions.status t = redeemed ->
    claim toDataURL (Transactions.id t) db
    = (db, Error 410 "Gift already redeemed").
Proof.
  intros toDataURL db t Hk Ht Hg Hu Hs.
  destruct (select_claim_unique db t Hk Ht Hg Hu) as (gt & u & Hsel & _).
  unfold claim, route, bind, query. rewrite Hsel, Hs. reflexivity.
Qed.

Lemma claim_of_redeemed_gift_is_gone_witness :
  transaction_keys_unique Tour.after_redemption /\
  In Tour.honoured (transactions Tour.after_redemption) /\
  Transactions.status Tour.honoured = redeemed /\
  claim Demo.toDataURL (Transactions.id Tour.honoured) Tour.after_redemption
  = (Tour.after_redemption, Error 410 "Gift already redeemed").
Proof.
  assert (Hk : transaction_keys_unique Tour.after_redemption).
  { unfold transaction_keys_unique. simpl. repeat constructor. intros []. }
  assert (Hin : In Tour.honoured (transactions Tour.after_redemption))
    by (now left).
  split; [exact Hk|]. split; [exact Hin|]. split; [reflexivity|].
  apply (claim_of_redeemed_gift_is_gone Demo.toDataURL Tour.after_redemption
           Tour.honoured Hk Hin); reflexivity.
Defined.

(** X12: a claim of a transaction not yet redeemed shows it: the reply
    carries the identity and message of the transaction, the name, emoji,
    description and price of a catalogue row with the transaction's gift
    type, the name of an account with the sender's id, and the QR image of
    the transaction's redemption code; the store does not change. *)
Theorem claim_shows_an_unredeemed_gift :
  forall toDataURL db t url,
    transaction_keys_unique db ->
    In t (transactions db) ->
    gift_type_exists (Transactions.gift_type_id t) db = true ->
    user_exists (Transactions.sender_id t) db = true ->
    Transactions.status t <> redeemed ->
    toDataURL (Transactions.qr_code t) = Some url ->
    exists gt u,
      In gt (gift_types db) /\ GiftTypes.id gt = Transactions.gift_type_id t /\
      In u (users db) /\ Users.id u = Transactions.sender_id t /\
      claim toDataURL (Transactions.id t) db
      = (db, Json (mkClaimBody (Transactions.id t) (GiftTypes.name gt)
                     (GiftTypes.emoji gt) (GiftTypes.description gt)
                     (GiftTypes.price gt) (Transactions.message t)
                     (Users.name u) url)).
Proof.
  intros toDataURL db t url Hk Ht Hg Hu Hs Hurl.
  destruct (select_claim_unique db t Hk Ht Hg Hu)
    as (gt & u & Hsel & Hgt & Egt & Hu' & Eu').
  exists gt, u. repeat split; try assumption.
  unfold claim, route, bind, query. rewrite Hsel.
  apply String.eqb_neq in Hs. rewrite Hs, Hurl. reflexivity.
Qed.

Lemma claim_shows_an_unredeemed_gift_witness :
  transaction_keys_unique Demo.sent /\
  In Demo.sent_transaction (transactions Demo.sent) /\
  exists gt u,
    In gt (gift_types Demo.sent) /\
    GiftTypes.id gt = Transactions.gift_type_id Demo.sent_transaction /\
    In u (users Demo.sent) /\
    Users.id u = Transactions.sender_id Demo.sent_transaction /\
    claim Demo.toDataURL (Transactions.id Demo.sent_transaction) Demo.sent
    = (Demo.sent,
       Json (mkClaimBody (Transactions.id Demo.sent_transaction)
               (GiftTypes.name gt) (GiftTypes.emoji gt)
               (GiftTypes.description gt) (GiftTypes.price gt)
               (Transactions.message Demo.sent_transaction) (Users.name u)
               "data:image/png;base64,CADEAUTJE-t1")).
Proof.
  assert (Hk : transaction_keys_unique Demo.sent).
  { unfold transaction_keys_unique. simpl. repeat constructor. intros []. }
  assert (Hin : In Demo.sent_transaction (transactions Demo.sent))
    by (now left).
  split; [exact Hk|]. split; [exact Hin|].
  apply (claim_shows_an_unredeemed_gift Demo.toDataURL Demo.sent
           Demo.sent_transaction "data:image/png;base64,CADEAUTJE-t1" Hk Hin).
  - reflexivity.
  - reflexivity.
  - discriminate.
  - reflexivity.
Defined.

(** X13: what a successful send replies can be claimed right away.  In a
    store whose transaction identities and catalogue ids are distinct, after
    a send that succeeded the claim of its [transactionId] succeeds, leaves
    the store as the send left it, and shows the same gift name, emoji and
    description and the same QR image as the send's reply, together with
    the message of the request and the name of the sending account. *)
Theorem sent_gift_can_be_claimed :
  forall toDataURL user req transactionId db db' body,
    transaction_keys_unique db ->
    catalogue_keys_unique db ->
    send toDataURL user req transactionId db = (db', Json body) ->
    exists u price,
      In u (users db) /\ user = Some (Users.id u) /\
      claim toDataURL transactionId db'
      = (db', Json (mkClaimBody transactionId
                      (gs_name (sb_gift body)) (gs_emoji (sb_gift body))
                      (gs_description (sb_gift body)) price
                      (sr_message req) (Users.name u) (sb_qrCode body))).
Proof.
  intros toDataURL user req tid db db' body Hk Hc Hsend.
  apply send_json_inv in Hsend.
  destruct Hsend
    as (uid & gid & g & url & -> & Hreq & Hnz & _ & Hg & Hurl & Hi & -> & ->).
  destruct (insert_transaction tid uid (sr_receiverEmail req) gid
              (qrCodeData tid) (sr_message req) db) as [db1|] eqn:Ei;
    [clear Hi|congruence].
  apply insert_transaction_some in Ei.
  destruct Ei as (_ & Hfresh & _ & Hu & Hge).
  set (new := Transactions.mk tid uid (sr_receiverEmail req) gid issued
                              (qrCodeData tid) (sr_message req) None None).
  set (db' := update_user_gift_decrement uid gid
                (set_transactions (transactions db ++ [new]) db)).
  assert (Hk' : transaction_keys_unique db').
  { unfold transaction_keys_unique, db'. simpl. rewrite map_app. simpl.
    apply NoDup_app; [exact Hk | repeat constructor; intros [] |].
    intros k Hin [<-|[]]. apply in_map_iff in Hin.
    destruct Hin as (t & Ht & Hin). exact (Hfresh t Hin Ht). }
  assert (Hin : In new (transactions db'))
    by (unfold db'; simpl; apply in_or_app; right; now left).
  destruct (select_claim_unique db' new Hk' Hin Hge Hu)
    as (gt & u & Hsel & Hgt & Egt & Hu' & Eu').
  assert (gt = g).
  { apply find_some in Hg. destruct Hg as [Hgin Hgid].
    apply Z.eqb_eq in Hgid.
    eapply (NoDup_map_injective_on GiftTypes.id); try eassumption.
    simpl in Egt. congruence. }
  subst gt. exists u, (GiftTypes.price g).
  split; [exact Hu'|]. split; [simpl in Eu'; now rewrite Eu'|].
  unfold claim, route, bind, query.
  change (Transactions.id new) with tid in Hsel. rewrite Hsel.
  simpl. now rewrite Hurl.
Qed.

Lemma sent_gift_can_be_claimed_witness :
  exists db' body u price,
    send Demo.toDataURL (Some 1) (Demo.send_request 1) "t1"
         (Demo.holding [UserGifts.mk 1 1 3]) = (db', Json body) /\
    In u (users (Demo.holding [UserGifts.mk 1 1 3])) /\
    Some 1 = Some (Users.id u) /\
    claim Demo.toDataURL "t1" db'
    = (db', Json (mkClaimBody "t1"
                    (gs_name (sb_gift body)) (gs_emoji (sb_gift body))
                    (gs_description (sb_gift body)) price
                    (sr_message (Demo.send_request 1)) (Users.name u)
                    (sb_qrCode body))).
Proof.
  eexists. eexists.
  assert (Hs : send Demo.toDataURL (Some 1) (Demo.send_request 1) "t1"
                    (Demo.holding [UserGifts.mk 1 1 3])
               = (Demo.sent,
                  Json (mkSendBody "Gift sent successfully" "t1"
                          (mkGiftSummary (GiftTypes.name Demo.biertje)
                             (GiftTypes.emoji Demo.biertje)
                             (GiftTypes.description Demo.biertje))
                          "data:image/png;base64,CADEAUTJE-t1"
                          "https://cadeautjes.app/claim/t1")))
    by reflexivity.
  destruct (sent_gift_can_be_claimed Demo.toDataURL (Some 1)
              (Demo.send_request 1) "t1" (Demo.holding [UserGifts.mk 1 1 3])
              _ _
              ltac:(unfold transaction_keys_unique; simpl; constructor)
              ltac:(unfold catalogue_keys_unique; simpl;
                    repeat constructor; simpl; intuition lia)
              Hs)
    as (u & price & H1 & H2 & H3).
  exists u, price. split; [exact Hs|]. split; [exact H1|].
  split; [exact H2 | exact H3].
Defined.

(** ** [GET /inventory] against the ledger *)



(** ** [POST /sync]: the device *)

Lemma update_device_id_users dev uid db :
  map Users.id (users (update_device_id dev uid db)) = map Users.id (users db)
  /\ (forall u, In u (users (update_device_id dev uid db)) ->
                Users.id u = uid -> Users.device_id u = Some dev)
  /\ (forall u, Users.id u <> uid ->
                (In u (users (update_device_id dev uid db)) <-> In u (users db))).
Proof.
  unfold update_device_id. simpl.
  induction (users db) as [|x l (IH1 & IH2 & IH3)]; simpl.
  - repeat split; intros; tauto.
  - split; [|split].
    + rewrite IH1. now destruct (Users.id x =? uid).
    + intros u [<-|Hin] Hid; [|now apply IH2].
      destruct (Users.id x =? uid) eqn:E; [reflexivity|].
      apply Z.eqb_neq in E. contradiction.
    + intros u Hne. rewrite (IH3 u Hne).
      destruct (Z.eqb_spec (Users.id x) uid) as [E|E].
      * split; intros [<-|H]; auto; simpl in Hne; congruence.
      * tauto.
Qed.

(** X17: a sync that carries a device id that is not the empty string
    records it for the caller: after it every account with the caller's id
    has that device id, every other account is as before, and inventory,
    catalogue, transactions and receipts are untouched; a sync whose device
    id is missing or is the empty string, or without an authenticated
    caller, changes nothing at all. *)
Theorem sync_records_the_device_of_the_caller :
  forall uid dev user db,
    dev <> EmptyString ->
    map Users.id (users (fst (sync (Some uid) (Some dev) db)))
    = map Users.id (users db) /\
    (forall u, In u (users (fst (sync (Some uid) (Some dev) db))) ->
               Users.id u = uid -> Users.device_id u = Some dev) /\
    (forall u, Users.id u <> uid ->
               (In u (users (fst (sync (Some uid) (Some dev) db)))
                <-> In u (users db))) /\
    user_gifts (fst (sync (Some uid) (Some dev) db)) = user_gifts db /\
    gift_types (fst (sync (Some uid) (Some dev) db)) = gift_types db /\
    transactions (fst (sync (Some uid) (Some dev) db)) = transactions db /\
    purchases (fst (sync (Some uid) (Some dev) db)) = purchases db /\
    fst (sync user None db) = db /\
    fst (sync user (Some EmptyString) db) = db /\
    sync None (Some dev) db = (db, Error 401 "User not authenticated").
Proof.
  intros uid dev user db Hdev.
  destruct dev as [|c d]; [congruence|].
  change (fst (sync (Some uid) (Some (String c d)) db))
    with (update_device_id (String c d) uid db).
  destruct (update_device_id_users (String c d) uid db) as (H1 & H2 & H3).
  split; [exact H1|]. split; [exact H2|]. split; [exact H3|].
  repeat split; now destruct user.
Qed.

Lemma sync_records_the_device_of_the_caller_witness :
  "phone-1"%string <> EmptyString /\
  (forall u, In u (users (fst (sync (Some 1) (Some "phone-1"%string) Demo.db0))) ->
             Users.id u = 1 -> Users.device_id u = Some "phone-1"%string) /\
  fst (sync (Some 1) (Some EmptyString) Demo.db0) = Demo.db0.
Proof.
  assert (Hd : "phone-1"%string <> EmptyString) by discriminate.
  split; [exact Hd|].
  pose proof (sync_records_the_device_of_the_caller 1 "phone-1" (Some 1)
                Demo.db0 Hd) as H.
  split; [apply H|apply H].
Defined.

(** * The routes on the numbers as the store keeps them *)

(** ** Rounding *)

Lemma to_double_exact z : safe_integer z -> to_double z = z.
Proof.
  unfold safe_integer, to_double. intros H.
  destruct (Z.eq_dec (Z.abs z) (2 ^ 53)) as [E|E].
  - assert (Hz : z = 2 ^ 53 \/ z = - 2 ^ 53) by lia.
    destruct Hz as [-> | ->]; vm_compute; reflexivity.
  - cbv zeta.
    assert (Hle : Z.log2 (Z.abs z) - 52 <= 0).
    { destruct (Z.eq_dec (Z.abs z) 0) as [E0|E0].
      - rewrite E0. simpl. lia.
      - assert (Z.log2 (Z.abs z) < 53); [|lia].
        apply Z.log2_lt_pow2; lia. }
    apply Z.leb_le in Hle. now rewrite Hle.
Qed.

Lemma plus_number_exact v x :
  safe_integer v -> safe_integer x -> safe_integer (v + x) ->
  plus_number v x = v + x.
Proof.
  intros Hv Hx Hs. unfold plus_number.
  now rewrite (to_double_exact v Hv), (to_double_exact x Hx), to_double_exact.
Qed.

Lemma minus_one_exact v : - 2 ^ 63 < v < 2 ^ 63 -> minus_one v = v - 1.
Proof.
  intros [Hl Hh]. unfold minus_one, kept_as_integer.
  apply Z.ltb_lt in Hl, Hh. now rewrite Hl, Hh.
Qed.

Lemma js_times_exact price q :
  price mod 25 = 0 -> Z.abs (price * q) <= 25 * 2 ^ 53 ->
  js_times price q = price * q.
Proof.
  intros Hd Hb. unfold js_times.
  apply Z.div_exact in Hd; [|lia].
  set (m := price / 25) in *.
  assert (Hmq : Z.abs m * Z.abs q <= 2 ^ 53).
  { rewrite <- Z.abs_mul. rewrite Hd in Hb.
    replace (25 * m * q) with (25 * (m * q)) in Hb by ring. lia. }
  destruct (Z.eq_dec m 0) as [Em|Em].
  - rewrite Em in *. rewrite Hd. now vm_compute.
  - destruct (Z.eq_dec q 0) as [Eq|Eq].
    + rewrite Eq. change (to_double 0) with 0. rewrite !Z.mul_0_r.
      reflexivity.
    + assert (Hm : safe_integer m) by (unfold safe_integer; nia).
      assert (Hq : safe_integer q) by (unfold safe_integer; nia).
      assert (Hp : safe_integer (m * q))
        by (unfold safe_integer; rewrite Z.abs_mul; exact Hmq).
      rewrite (to_double_exact m Hm), (to_double_exact q Hq),
        (to_double_exact _ Hp), Hd. ring.
Qed.

Lemma js_plus_exact a b :
  a mod 25 = 0 -> b mod 25 = 0 -> Z.abs (a + b) <= 25 * 2 ^ 53 ->
  js_plus a b = a + b.
Proof.
  intros Ha Hb Hs. unfold js_plus.
  apply Z.div_exact in Ha; [|lia]. apply Z.div_exact in Hb; [|lia].
  set (x := a / 25) in *. set (y := b / 25) in *.
  rewrite to_double_exact; [lia|]. unfold safe_integer. lia.
Qed.

(** ** The statements within the ranges *)

Lemma stored_update_add_agree q uid gid db :
  safe_integer q ->
  (forall r, In r (user_gifts db) -> user_gift_key uid gid r = true ->
             Z.abs (UserGifts.quantity r) + Z.abs q <= 2 ^ 53) ->
  Stored.update_user_gift_add q uid gid db = update_user_gift_add q uid gid db.
Proof.
  intros Hq Hr. unfold Stored.update_user_gift_add, update_user_gift_add.
  f_equal. apply map_ext_in. intros r Hin.
  unfold Stored.add_quantity, add_quantity.
  destruct (user_gift_key uid gid r) eqn:Hk; [|reflexivity].
  specialize (Hr r Hin Hk). unfold safe_integer in Hq.
  rewrite plus_number_exact; [reflexivity| | exact Hq |];
    unfold safe_integer; lia.
Qed.

Lemma stored_insert_agree uid gid q db :
  safe_integer q ->
  Stored.insert_user_gift uid gid q db = insert_user_gift uid gid q db.
Proof.
  intros Hq. unfold Stored.insert_user_gift, insert_user_gift.
  now rewrite (to_double_exact q Hq).
Qed.

Lemma stored_decrement_agree uid gid db :
  (forall r, In r (user_gifts db) -> user_gift_key uid gid r = true ->
             - 2 ^ 63 < UserGifts.quantity r < 2 ^ 63) ->
  Stored.update_user_gift_decrement uid gid db
  = update_user_gift_decrement uid gid db.
Proof.
  intros Hr.
  unfold Stored.update_user_gift_decrement, update_user_gift_decrement.
  f_equal. apply map_ext_in. intros r Hin.
  unfold Stored.decrement_quantity, add_quantity.
  destruct (user_gift_key uid gid r) eqn:Hk; [|reflexivity].
  rewrite (minus_one_exact _ (Hr r Hin Hk)). reflexivity.
Qed.

(** ** The safe range along the items of a purchase *)

Lemma exposure_nonneg gid items : 0 <= exposure gid items.
Proof.
  induction items as [|it items IH]; simpl; [lia|].
  destruct (giftTypeId it =? gid); lia.
Qed.

Lemma within_safe_range_spec uid items db :
  within_safe_range uid items db = true <->
  forall it, In it items ->
    exposure (giftTypeId it) items <= 2 ^ 53 /\
    forall r, In r (user_gifts db) ->
      user_gift_key uid (giftTypeId it) r = true ->
      Z.abs (UserGifts.quantity r) + exposure (giftTypeId it) items <= 2 ^ 53.
Proof.
  unfold within_safe_range. rewrite forallb_forall.
  split; intros H it Hin; specialize (H it Hin).
  - apply andb_prop in H. destruct H as [He Hr]. apply Z.leb_le in He.
    split; [exact He|]. intros r Hrin Hk.
    rewrite forallb_forall in Hr. specialize (Hr r Hrin).
    rewrite Hk in Hr. simpl in Hr. now apply Z.leb_le in Hr.
  - destruct H as [He Hr]. apply andb_true_intro. split.
    + now apply Z.leb_le.
    + apply forallb_forall. intros r Hrin.
      destruct (user_gift_key uid (giftTypeId it) r) eqn:Hk; [|reflexivity].
      simpl. apply Z.leb_le. now apply Hr.
Qed.

Lemma safe_range_head uid it rest db :
  within_safe_range uid (it :: rest) db = true ->
  safe_integer (quantity it) /\
  forall r, In r (user_gifts db) ->
    user_gift_key uid (giftTypeId it) r = true ->
    Z.abs (UserGifts.quantity r) + Z.abs (quantity it) <= 2 ^ 53.
Proof.
  intros H. rewrite within_safe_range_spec in H.
  destruct (H it (or_introl eq_refl)) as [He Hr].
  simpl in He, Hr. rewrite Z.eqb_refl in He, Hr.
  pose proof (exposure_nonneg (giftTypeId it) rest) as Hn.
  split; [unfold safe_integer; lia|].
  intros r Hin Hk. specialize (Hr r Hin Hk). lia.
Qed.

Lemma safe_range_step_update uid it rest db :
  within_safe_range uid (it :: rest) db = true ->
  within_safe_range uid rest
    (update_user_gift_add (quantity it) uid (giftTypeId it) db) = true.
Proof.
  rewrite !within_safe_range_spec. intros H it' Hin'.
  destruct (H it' (or_intror Hin')) as [He Hr]. simpl in He, Hr.
  pose proof (exposure_nonneg (giftTypeId it') rest) as Hn.
  split.
  - destruct (giftTypeId it =? giftTypeId it'); lia.
  - intros r' Hr' Hk'. unfold update_user_gift_add in Hr'. simpl in Hr'.
    apply in_map_iff in Hr'. destruct Hr' as (r & <- & Hrin).
    rewrite add_quantity_key in Hk'. specialize (Hr r Hrin Hk').
    unfold add_quantity.
    destruct (user_gift_key uid (giftTypeId it) r) eqn:Hk; simpl.
    + assert (E : giftTypeId it = giftTypeId it').
      { apply user_gift_key_iff in Hk, Hk'. congruence. }
      rewrite E, Z.eqb_refl in Hr. lia.
    + destruct (giftTypeId it =? giftTypeId it'); lia.
Qed.

Lemma safe_range_step_insert uid it rest db db' :
  within_safe_range uid (it :: rest) db = true ->
  insert_user_gift uid (giftTypeId it) (quantity it) db = Some db' ->
  within_safe_range uid rest db' = true.
Proof.
  rewrite !within_safe_range_spec. intros H Hi it' Hin'.
  destruct (H it' (or_intror Hin')) as [He Hr]. simpl in He, Hr.
  pose proof (exposure_nonneg (giftTypeId it') rest) as Hn.
  unfold insert_user_gift in Hi.
  destruct (user_exists uid db && gift_type_exists (giftTypeId it) db);
    [|discriminate].
  injection Hi as <-. simpl. split.
  - destruct (giftTypeId it =? giftTypeId it'); lia.
  - intros r Hrin Hk. apply in_app_or in Hrin. destruct Hrin as [Hrin|[<-|[]]].
    + specialize (Hr r Hrin Hk).
      destruct (giftTypeId it =? giftTypeId it'); lia.
    + simpl. apply user_gift_key_iff in Hk. unfold row_key in Hk. simpl in Hk.
      assert (E : giftTypeId it = giftTypeId it') by congruence.
      rewrite E, Z.eqb_refl in He. lia.
Qed.

(** ** The purchase loop, one item at a time *)

Lemma purchase_items_cons uid it rest total db :
  purchase_items uid (it :: rest) total db
  = match select_active_gift_type (giftTypeId it) db with
    | None =>
        (db, inr (Error 400 ("Invalid gift type: " ++ show (giftTypeId it))))
    | Some g =>
        match select_user_gift uid (giftTypeId it) db with
        | Some _ =>
            purchase_items uid rest (total + GiftTypes.price g * quantity it)
              (update_user_gift_add (quantity it) uid (giftTypeId it) db)
        | None =>
            match insert_user_gift uid (giftTypeId it) (quantity it) db with
            | Some db1 =>
                purchase_items uid rest
                  (total + GiftTypes.price g * quantity it) db1
            | None => (db, inr internal_error)
            end
        end
    end.
Proof.
  simpl. unfold bind at 1, query at 1.
  destruct (select_active_gift_type (giftTypeId it) db); [|reflexivity].
  unfold bind at 1 2, query at 1.
  destruct (select_user_gift uid (giftTypeId it) db); [reflexivity|].
  unfold run_checked at 1.
  now destruct (insert_user_gift uid (giftTypeId it) (quantity it) db).
Qed.

Lemma stored_purchase_items_cons uid it rest total db :
  Stored.purchase_items uid (it :: rest) total db
  = match select_active_gift_type (giftTypeId it) db with
    | None =>
        (db, inr (Error 400 ("Invalid gift type: " ++ show (giftTypeId it))))
    | Some g =>
        match select_user_gift uid (giftTypeId it) db with
        | Some _ =>
            Stored.purchase_items uid rest
              (js_plus total (js_times (GiftTypes.price g) (quantity it)))
              (Stored.update_user_gift_add (quantity it) uid (giftTypeId it)
                 db)
        | None =>
            match Stored.insert_user_gift uid (giftTypeId it) (quantity it) db
            with
            | Some db1 =>
                Stored.purchase_items uid rest
                  (js_plus total (js_times (GiftTypes.price g) (quantity it)))
                  db1
            | None => (db, inr internal_error)
            end
        end
    end.
Proof.
  simpl. unfold bind at 1, query at 1.
  destruct (select_active_gift_type (giftTypeId it) db); [|reflexivity].
  unfold bind at 1 2, query at 1.
  destruct (select_user_gift uid (giftTypeId it) db); [reflexivity|].
  unfold run_checked at 1.
  now destruct (Stored.insert_user_gift uid (giftTypeId it) (quantity it) db).
Qed.

(** Within the safe range the loop leaves the inventory the exact integers
    give, and ends the same way. *)
Lemma stored_purchase_items_inventory uid pre :
  forall tail t t' db,
    match tail with [] => True | bad :: _ => ~ resolves db bad end ->
    within_safe_range uid pre db = true ->
    fst (Stored.purchase_items uid (pre ++ tail) t db)
    = fst (purchase_items uid (pre ++ tail) t' db) /\
    match snd (Stored.purchase_items uid (pre ++ tail) t db),
          snd (purchase_items uid (pre ++ tail) t' db) with
    | inl _, inl _ => True
    | inr r, inr r' => r = r'
    | _, _ => False
    end.
Proof.
  induction pre as [|it pre IH]; intros tail t t' db Ht Hw.
  - simpl app. destruct tail as [|bad rest]; [simpl; now split|].
    rewrite purchase_items_cons, stored_purchase_items_cons.
    destruct (select_active_gift_type (giftTypeId bad) db) eqn:Hb;
      [exfalso; apply Ht; unfold resolves; congruence|].
    simpl. now split.
  - simpl app. rewrite purchase_items_cons, stored_purchase_items_cons.
    destruct (select_active_gift_type (giftTypeId it) db) as [g|] eqn:Hg;
      [|simpl; now split].
    destruct (safe_range_head uid it pre db Hw) as [Hq Hrows].
    assert (Htail : forall db1, same_but_inventory db db1 ->
              match tail with
              | [] => True
              | bad :: _ => ~ resolves db1 bad
              end).
    { intros db1 Hf. destruct tail as [|bad rest]; [exact I|].
      unfold resolves in *. now rewrite (select_active_frame _ _ _ Hf). }
    destruct (select_user_gift uid (giftTypeId it) db) as [r|] eqn:Hs.
    + rewrite (stored_update_add_agree _ _ _ _ Hq Hrows).
      apply IH; [apply Htail, same_but_inventory_set|].
      now apply safe_range_step_update.
    + rewrite (stored_insert_agree _ _ _ _ Hq).
      destruct (insert_user_gift uid (giftTypeId it) (quantity it) db)
        as [db1|] eqn:Hi; [|simpl; now split].
      apply IH; [eapply Htail, insert_user_gift_frame; eassumption|].
      eapply safe_range_step_insert; eassumption.
Qed.

Lemma stored_insert_user_gift_frame uid gid q db db' :
  Stored.insert_user_gift uid gid q db = Some db' -> same_but_inventory db db'.
Proof.
  unfold Stored.insert_user_gift.
  destruct (user_exists uid db && gift_type_exists gid db); [|discriminate].
  intros H. injection H as <-. apply same_but_inventory_set.
Qed.

Lemma stored_purchase_items_never_json uid items :
  forall total db db' r body,
    Stored.purchase_items uid items total db = (db', inr r) -> r <> Json body.
Proof.
  induction items as [|a l IH]; intros total db db' r body H; [discriminate|].
  rewrite stored_purchase_items_cons in H.
  destruct (select_active_gift_type (giftTypeId a) db).
  - destruct (select_user_gift uid (giftTypeId a) db).
    + eapply IH. exact H.
    + destruct (Stored.insert_user_gift uid (giftTypeId a) (quantity a) db).
      * eapply IH. exact H.
      * injection H as _ <-. discriminate.
  - injection H as _ <-. discriminate.
Qed.

Lemma order_magnitude_nonneg db items : 0 <= order_magnitude db items.
Proof.
  induction items as [|it items IH]; simpl; [lia|].
  destruct (select_active_gift_type (giftTypeId it) db); lia.
Qed.

Lemma order_magnitude_frame db db1 items :
  same_but_inventory db db1 ->
  order_magnitude db1 items = order_magnitude db items.
Proof.
  intros Hf. induction items as [|it items IH]; simpl; [reflexivity|].
  now rewrite (select_active_frame _ _ _ Hf), IH.
Qed.

Lemma quarter_prices_frame db db1 items :
  same_but_inventory db db1 ->
  quarter_prices db1 items = quarter_prices db items.
Proof.
  intros Hf. induction items as [|it items IH]; simpl; [reflexivity|].
  now rewrite (select_active_frame _ _ _ Hf), IH.
Qed.

(** What a loop that ran to the end has left outside the inventory, and
    what it has added up. *)
Lemma stored_purchase_items_success uid items :
  forall t db db' t',
    Stored.purchase_items uid items t db = (db', inl t') ->
    same_but_inventory db db' /\
    Forall (resolves db) items /\
    (t mod 25 = 0 -> quarter_prices db items = true ->
     Z.abs t + order_magnitude db items <= 25 * 2 ^ 53 ->
     t' = t + order_total db items).
Proof.
  induction items as [|it items IH]; intros t db db' t' H.
  - simpl in H. injection H as <- <-.
    split; [apply same_but_inventory_refl|]. split; [constructor|].
    intros _ _ _. simpl. lia.
  - rewrite stored_purchase_items_cons in H.
    destruct (select_active_gift_type (giftTypeId it) db) as [g|] eqn:Hg;
      [|discriminate].
    assert (Hstep : forall db1,
      same_but_inventory db db1 ->
      Stored.purchase_items uid items
        (js_plus t (js_times (GiftTypes.price g) (quantity it))) db1
      = (db', inl t') ->
      same_but_inventory db db' /\
      Forall (resolves db) (it :: items) /\
      (t mod 25 = 0 -> quarter_prices db (it :: items) = true ->
       Z.abs t + order_magnitude db (it :: items) <= 25 * 2 ^ 53 ->
       t' = t + order_total db (it :: items))).
    { intros db1 Hf Hrun. apply IH in Hrun.
      destruct Hrun as (Hf1 & Hres & Htot).
      split; [eapply same_but_inventory_trans; eassumption|]. split.
      - constructor; [unfold resolves; congruence|].
        eapply Forall_impl; [|exact Hres]. intros a. now apply resolves_frame.
      - simpl. rewrite Hg. intros Ht Hq Hm.
        apply andb_prop in Hq. destruct Hq as [Hp Hq].
        apply Z.eqb_eq in Hp.
        pose proof (order_magnitude_nonneg db items) as Hn.
        assert (Hpq : (GiftTypes.price g * quantity it) mod 25 = 0).
        { apply Z.mod_divide; [lia|]. apply Z.divide_mul_l.
          apply Z.mod_divide; [lia | exact Hp]. }
        rewrite js_times_exact in Htot; [|exact Hp | lia].
        rewrite js_plus_exact in Htot; [|exact Ht | exact Hpq | lia].
        rewrite (order_total_frame _ _ _ Hf) in Htot.
        rewrite (order_magnitude_frame _ _ _ Hf) in Htot.
        rewrite (quarter_prices_frame _ _ _ Hf) in Htot.
        rewrite Htot; [lia | | exact Hq | lia].
        apply Z.mod_divide; [lia|]. apply Z.divide_add_r.
        + apply Z.mod_divide; [lia | exact Ht].
        + apply Z.mod_divide; [lia | exact Hpq]. }
    destruct (select_user_gift uid (giftTypeId it) db) as [r|] eqn:Hs.
    + apply (Hstep _ (same_but_inventory_set _ _) H).
    + destruct (Stored.insert_user_gift uid (giftTypeId it) (quantity it) db)
        as [db1|] eqn:Hi; [|discriminate].
      apply (Hstep db1 (stored_insert_user_gift_frame _ _ _ _ _ Hi) H).
Qed.

(** A successful purchase is a loop that ran to the end, then a receipt. *)
Lemma stored_purchase_json_inv uid items purchaseId db db' body :
  Stored.purchase (Some uid) (Some items) purchaseId db = (db', Json body) ->
  exists db1 total,
    Stored.purchase_items uid items 0 db = (db1, inl total) /\
    db' = set_purchases
            (purchases db1 ++
             [Purchases.mk purchaseId uid items total "completed"]) db1 /\
    body = mkPurchaseBody "Purchase successful" purchaseId total items.
Proof.
  unfold Stored.purchase. destruct items as [|it items]; [discriminate|].
  intros H. unfold route, bind at 1 in H.
  destruct (Stored.purchase_items uid (it :: items) 0 db)
    as [db1 [total|r]] eqn:Hl.
  - exists db1, total. split; [reflexivity|].
    now apply record_purchase_ok.
  - exfalso. injection H as _ Hr.
    exact (stored_purchase_items_never_json _ _ _ _ _ _ body Hl Hr).
Qed.

(** Within the safe range a loop that ran to the end has credited every
    item. *)
Lemma stored_purchase_items_credit uid items t db db1 t1 :
  within_safe_range uid items db = true ->
  Stored.purchase_items uid items t db = (db1, inl t1) ->
  forall gid,
    balance uid gid db1 = balance uid gid db + ordered_quantity gid items.
Proof.
  intros Hw Hl.
  destruct (stored_purchase_items_inventory uid items [] t t db I Hw)
    as [Hfst Hsnd].
  rewrite app_nil_r in Hfst, Hsnd. rewrite Hl in Hfst, Hsnd. simpl in Hfst, Hsnd.
  destruct (purchase_items uid items t db) as [db2 [t2|r]] eqn:Hz;
    simpl in Hfst, Hsnd; [|contradiction].
  subst db2. apply purchase_items_success in Hz. apply Hz.
Qed.

(** ** [POST /send] within the range of stored integers *)

Lemma unique_available_row uid gid db r0 :
  unique_keys db ->
  select_available_user_gift uid gid db = Some r0 ->
  0 < UserGifts.quantity r0 /\
  balance uid gid db = UserGifts.quantity r0 /\
  forall r, In r (user_gifts db) -> user_gift_key uid gid r = true -> r = r0.
Proof.
  intros Hu Hav. unfold select_available_user_gift in Hav.
  apply find_some in Hav. destruct Hav as [Hin0 Hp].
  apply andb_prop in Hp. destruct Hp as [Hk0 Hq0]. apply Z.ltb_lt in Hq0.
  assert (Hall : forall r, In r (user_gifts db) ->
                           user_gift_key uid gid r = true -> r = r0).
  { intros r Hin Hk.
    eapply (NoDup_map_injective_on row_key); try eassumption.
    apply user_gift_key_iff in Hk, Hk0. congruence. }
  split; [exact Hq0|]. split; [|exact Hall].
  unfold balance, select_user_gift.
  destruct (find (user_gift_key uid gid) (user_gifts db)) as [r|] eqn:Hf.
  - apply find_some in Hf. destruct Hf as [Hin Hk].
    now rewrite (Hall r Hin Hk).
  - pose proof (find_none _ _ Hf r0 Hin0) as Hc. congruence.
Qed.

Lemma stored_send_agree toDataURL user req tid db :
  unique_keys db ->
  (forall uid gid, user = Some uid -> sr_giftTypeId req = Some gid ->
                   balance uid gid db < 2 ^ 63) ->
  Stored.send toDataURL user req tid db = send toDataURL user req tid db.
Proof.
  intros Hu Hb. unfold Stored.send, send, route.
  destruct user as [uid|]; [|reflexivity].
  destruct (sr_giftTypeId req) as [gid|] eqn:Hreq; [|reflexivity].
  specialize (Hb uid gid eq_refl eq_refl).
  assert (Hdec : forall r0 l,
    select_available_user_gift uid gid db = Some r0 ->
    Stored.update_user_gift_decrement uid gid (set_transactions l db)
    = update_user_gift_decrement uid gid (set_transactions l db)).
  { intros r0 l Hav. apply stored_decrement_agree. simpl. intros r Hin Hk.
    destruct (unique_available_row _ _ _ _ Hu Hav) as (Hpos & Hbal & Hall).
    rewrite (Hall r Hin Hk). lia. }
  destruct gid as [|gid|gid]; try reflexivity;
    unfold bind, query, respond, run_checked, run, ret;
    (destruct (select_available_user_gift uid _ db) as [r0|] eqn:Hav;
     [|reflexivity]);
    (destruct (toDataURL (qrCodeData tid)); [|reflexivity]);
    (destruct (insert_transaction tid uid _ _ _ _ db) as [db1|] eqn:Hi;
     [|reflexivity]);
    apply insert_transaction_some in Hi; destruct Hi as (-> & _);
    now rewrite (Hdec r0 _ eq_refl).
Qed.

(** ** [POST /purchase] of one item *)





(** ** [POST /send] from a positive balance *)




(** ** [POST /purchase]: the whole item list *)

(** X1: when every quantity is a safe integer, every price the request
    meets is a whole number of quarters and the amounts of its lines, signs
    left out, add up to no more than [2^53] quarters, a purchase that
    succeeds had every item resolve to a
    gift type on sale; the total it replies is the sum over all items of
    price times quantity, and it appends exactly one receipt, holding the
    purchase id, the buyer, the items as sent and that total. *)
Theorem purchase_total_is_sum_of_lines :
  forall uid items purchaseId db db' body,
    Forall (fun it => safe_integer (quantity it)) items ->
    whole_quarters db items = true ->
    Stored.purchase (Some uid) (Some items) purchaseId db = (db', Json body) ->
    Forall (resolves db) items /\
    body = mkPurchaseBody "Purchase successful" purchaseId
                          (order_total db items) items /\
    purchases db'
    = purchases db ++
      [Purchases.mk purchaseId uid items (order_total db items) "completed"].
Proof.
  intros uid items pid db db' body _ Hq H.
  apply stored_purchase_json_inv in H.
  destruct H as (db1 & total & Hl & -> & ->).
  apply stored_purchase_items_success in Hl.
  destruct Hl as (Hf & Hres & Htot).
  unfold whole_quarters in Hq. apply andb_prop in Hq.
  destruct Hq as [Hq Hm]. apply Z.leb_le in Hm.
  assert (Ht : total = order_total db items).
  { rewrite Htot; [lia | reflexivity | exact Hq | simpl; lia]. }
  subst total. split; [exact Hres|]. split; [reflexivity|].
  simpl. destruct Hf as (_ & _ & _ & Hp). now rewrite Hp.
Qed.

Lemma purchase_total_is_sum_of_lines_witness :
  exists db' body,
    Stored.purchase (Some 1) (Some [mkItem 1 3; mkItem 6 2; mkItem 1 1]) "p7"
                    Demo.db0
    = (db', Json body) /\
    Forall (resolves Demo.db0) [mkItem 1 3; mkItem 6 2; mkItem 1 1] /\
    body = mkPurchaseBody "Purchase successful" "p7"
             (order_total Demo.db0 [mkItem 1 3; mkItem 6 2; mkItem 1 1])
             [mkItem 1 3; mkItem 6 2; mkItem 1 1] /\
    purchases db'
    = purchases Demo.db0 ++
      [Purchases.mk "p7" 1 [mkItem 1 3; mkItem 6 2; mkItem 1 1]
         (order_total Demo.db0 [mkItem 1 3; mkItem 6 2; mkItem 1 1])
         "completed"].
Proof.
  eexists. eexists. split; [reflexivity|].
  apply (purchase_total_is_sum_of_lines 1 [mkItem 1 3; mkItem 6 2; mkItem 1 1]
           "p7" Demo.db0).
  - repeat constructor; unfold safe_integer; simpl; lia.
  - vm_compute. reflexivity.
  - reflexivity.
Defined.

(** X2: in a store with at most one inventory row per account and gift
    type, when for each gift type the request names the buyer's units
    together with the units asked for (signs left out) stay within [2^53]:
    after a purchase that succeeds, the buyer's balance for every gift type
    has grown by the quantities of all items of that gift type taken together
    (by nothing for a gift type the request does not name), also when a gift
    type occurs in several items. *)
Theorem purchase_credits_every_line :
  forall uid items purchaseId db db' body,
    unique_keys db ->
    within_safe_range uid items db = true ->
    Stored.purchase (Some uid) (Some items) purchaseId db = (db', Json body) ->
    forall gid,
      balance uid gid db' = balance uid gid db + ordered_quantity gid items.
Proof.
  intros uid items pid db db' body _ Hw H gid.
  apply stored_purchase_json_inv in H.
  destruct H as (db1 & total & Hl & -> & _).
  rewrite balance_set_purchases.
  exact (stored_purchase_items_credit _ _ _ _ _ _ Hw Hl gid).
Qed.

Lemma purchase_credits_every_line_witness :
  exists db' body,
    Stored.purchase (Some 1) (Some [mkItem 1 3; mkItem 6 2; mkItem 1 1]) "p7"
                    (Demo.holding [UserGifts.mk 1 1 5])
    = (db', Json body) /\
    forall gid,
      balance 1 gid db'
      = balance 1 gid (Demo.holding [UserGifts.mk 1 1 5])
        + ordered_quantity gid [mkItem 1 3; mkItem 6 2; mkItem 1 1].
Proof.
  eexists. eexists. split; [reflexivity|].
  eapply (purchase_credits_every_line 1 [mkItem 1 3; mkItem 6 2; mkItem 1 1]
            "p7" (Demo.holding [UserGifts.mk 1 1 5])).
  - unfold unique_keys. simpl. constructor; [intros [] | constructor].
  - vm_compute. reflexivity.
  - reflexivity.
Defined.

(** X4: in a store with at most one inventory row per account and gift
    type, when the first item that does not resolve to a gift type on sale
    comes after items that all do, its id is a safe integer and the items
    before it keep the buyer's units within [2^53]: the purchase of a known
    account replies 400 "Invalid gift type: <id of that item>" and writes no
    receipt; the items before it have been credited to the buyer, the items
    after it have not been looked at. *)
Theorem purchase_reports_first_unresolved_item :
  forall uid pre bad rest purchaseId db,
    user_exists uid db = true ->
    unique_keys db ->
    Forall (resolves db) pre ->
    ~ resolves db bad ->
    safe_integer (giftTypeId bad) ->
    within_safe_range uid pre db = true ->
    snd (Stored.purchase (Some uid) (Some (pre ++ bad :: rest)) purchaseId db)
    = Error 400 ("Invalid gift type: " ++ show (giftTypeId bad)) /\
    purchases (fst (Stored.purchase (Some uid) (Some (pre ++ bad :: rest))
                                    purchaseId db))
    = purchases db /\
    forall gid,
      balance uid gid
        (fst (Stored.purchase (Some uid) (Some (pre ++ bad :: rest))
                              purchaseId db))
      = balance uid gid db + ordered_quantity gid pre.
Proof.
  intros uid pre bad rest pid db Hu _ Hpre Hbad _ Hw.
  destruct (purchase_items_stops uid bad rest pre 0 db Hu Hpre Hbad)
    as (db1 & Hrun & Hf & Hbal).
  destruct (stored_purchase_items_inventory uid pre (bad :: rest) 0 0 db
              Hbad Hw) as [Hfst Hsnd].
  rewrite Hrun in Hfst, Hsnd. simpl in Hfst, Hsnd.
  destruct (Stored.purchase_items uid (pre ++ bad :: rest) 0 db)
    as [db2 [t|r]] eqn:Hs; simpl in Hfst, Hsnd; [contradiction|].
  subst db2 r. unfold Stored.purchase.
  destruct (pre ++ bad :: rest) as [|it l] eqn:El;
    [destruct pre; discriminate|].
  unfold route, bind. rewrite Hs. simpl.
  split; [reflexivity|]. split; [apply Hf | exact Hbal].
Qed.

Lemma purchase_reports_first_unresolved_item_witness :
  snd (Stored.purchase (Some 1)
         (Some ([mkItem 1 3] ++ mkItem 3 1 :: [mkItem 2 2])) "p1" Demo.db0)
  = Error 400 ("Invalid gift type: " ++ show (giftTypeId (mkItem 3 1))) /\
  purchases (fst (Stored.purchase (Some 1)
                    (Some ([mkItem 1 3] ++ mkItem 3 1 :: [mkItem 2 2]))
                    "p1" Demo.db0))
  = purchases Demo.db0 /\
  forall gid,
    balance 1 gid (fst (Stored.purchase (Some 1)
                          (Some ([mkItem 1 3] ++ mkItem 3 1 :: [mkItem 2 2]))
                          "p1" Demo.db0))
    = balance 1 gid Demo.db0 + ordered_quantity gid [mkItem 1 3].
Proof.
  apply (purchase_reports_first_unresolved_item 1 [mkItem 1 3] (mkItem 3 1)
           [mkItem 2 2] "p1" Demo.db0).
  - reflexivity.
  - unfold unique_keys. simpl. constructor.
  - repeat constructor. discriminate.
  - intros H. apply H. reflexivity.
  - unfold safe_integer. simpl. lia.
  - vm_compute. reflexivity.
Defined.

(** ** [POST /send]: units sent and units kept *)

Lemma balance_below uid gid db :
  Forall (fun r => UserGifts.quantity r < 2 ^ 63) (user_gifts db) ->
  balance uid gid db < 2 ^ 63.
Proof.
  intros H. unfold balance, select_user_gift.
  destruct (find (user_gift_key uid gid) (user_gifts db)) as [r|] eqn:Hf;
    [|lia].
  apply find_some in Hf. destruct Hf as [Hin _].
  rewrite Forall_forall in H. now apply H.
Qed.

(** X6: in a store with at most one inventory row per account and gift
    type and every unit count below [2^63], a send moves units, it neither
    makes nor loses them: for every account and gift type, the balance plus
    the number of transactions that account has sent of that gift type is the
    same after the request as before it, whatever the request and however it
    ends. *)
Theorem send_conserves_units :
  forall toDataURL user req transactionId db uid gid,
    unique_keys db ->
    Forall (fun r => UserGifts.quantity r < 2 ^ 63) (user_gifts db) ->
    balance uid gid (fst (Stored.send toDataURL user req transactionId db))
    + sent_units uid gid (fst (Stored.send toDataURL user req transactionId db))
    = balance uid gid db + sent_units uid gid db.
Proof.
  intros toDataURL user req tid db uid gid Hu Hq.
  rewrite stored_send_agree; [apply send_conserves_units_exact | exact Hu |].
  intros u g _ _. now apply balance_below.
Qed.

Lemma send_conserves_units_witness :
  balance 1 6
    (fst (Stored.send Demo.toDataURL (Some 1) (Demo.send_request 6) "t1"
                      Demo.mixed))
  + sent_units 1 6
      (fst (Stored.send Demo.toDataURL (Some 1) (Demo.send_request 6) "t1"
                        Demo.mixed))
  = balance 1 6 Demo.mixed + sent_units 1 6 Demo.mixed /\
  balance 1 6
    (fst (Stored.send Demo.toDataURL (Some 1) (Demo.send_request 6) "t1"
                      Demo.mixed)) = 4.
Proof.
  split; [|reflexivity].
  apply (send_conserves_units Demo.toDataURL (Some 1) (Demo.send_request 6)
           "t1" Demo.mixed 1 6).
  - unfold unique_keys. simpl.
    constructor; [simpl; intros [H|[]]; discriminate|].
    constructor; [intros [] | constructor].
  - unfold Demo.mixed. simpl. repeat constructor.
Defined.

(** X8: in a store with at most one inventory row per account and gift
    type, a send for a gift type of which the account holds nothing (a
    balance of zero, or less) changes nothing, no transaction is created and
    no unit count moves, and is answered 400: "You do not have this gift
    available", or "Gift type ID is required" when the id sent is 0. *)
Theorem send_without_units_is_refused :
  forall toDataURL db uid gid req transactionId,
    unique_keys db ->
    sr_giftTypeId req = Some gid ->
    balance uid gid db <= 0 ->
    Stored.send toDataURL (Some uid) req transactionId db
    = (db, Error 400 (if gid =? 0 then "Gift type ID is required"
                      else "You do not have this gift available")) /\
    send toDataURL (Some uid) req transactionId db
    = Stored.send toDataURL (Some uid) req transactionId db.
Proof.
  intros toDataURL db uid gid req tid Hu Hreq Hb.
  assert (Hsame : Stored.send toDataURL (Some uid) req tid db
                  = send toDataURL (Some uid) req tid db).
  { apply stored_send_agree; [exact Hu|].
    intros u g Heq Hg. injection Heq as <-. rewrite Hreq in Hg.
    injection Hg as <-. lia. }
  rewrite Hsame. split; [|reflexivity].
  destruct (Z.eqb_spec gid 0) as [->|Hnz].
  - unfold send, route. now rewrite Hreq.
  - now apply send_refused_without_units with (gid := gid).
Qed.

Lemma send_without_units_is_refused_witness :
  balance 1 1 (fst (send Demo.toDataURL (Some 1) (Demo.send_request 1) "t1"
                         Demo.mixed)) = 0 /\
  Stored.send Demo.toDataURL (Some 1) (Demo.send_request 1) "t2"
    (fst (send Demo.toDataURL (Some 1) (Demo.send_request 1) "t1" Demo.mixed))
  = (fst (send Demo.toDataURL (Some 1) (Demo.send_request 1) "t1" Demo.mixed),
     Error 400 "You do not have this gift available").
Proof.
  split; [reflexivity|].
  apply (send_without_units_is_refused Demo.toDataURL
           (fst (send Demo.toDataURL (Some 1) (Demo.send_request 1) "t1"
                      Demo.mixed))
           1 1 (Demo.send_request 1) "t2").
  - unfold unique_keys. simpl.
    constructor; [simpl; intros [H|[]]; discriminate|].
    constructor; [intros [] | constructor].
  - reflexivity.
  - vm_compute. discriminate.
Defined.
